(** * A typed-record layer over Aerospike: model of [Database.go]

    [Database.go] wraps the Aerospike Go client ([as.Client]): every table
    (an Aerospike set) is bound to one struct type held in a registry, and the
    public methods build a key, call one client method and hand the result
    back.  The development below embeds

    - the fragment of Go's [reflect] package the file uses,
    - the client library as a reference collaborator (keys, object codec,
      the remote record store with its write and scan policies),
    - the thirteen methods of [Database] and [NewDatabase], as state-passing
      functions that may panic,

    and then states and proves the properties of the layer. *)

From stdpp Require Import gmap strings list fin_maps.

Open Scope string_scope.
Open Scope list_scope.

(** ** Outcomes and the method monad *)

(** Go's [error] values.  [errors_New] is what [errors.New] builds in
    [Database.go]; the other constructors are the errors of the client
    library: a key that cannot be built, a result code of the server or of the
    network, a bin whose value does not fit the field it is decoded into. *)
Inductive error : Type :=
| errors_New (text : string)
| KeyError (reason : string)
| AerospikeError (resultCode : Z)
| DecodeError (bin : string).

#[global] Instance error_eq_dec : EqDecision error.
Proof. solve_decision. Defined.

(** What a [panic] carries: the error handed to [panic(err)], or the message
    of a run-time panic ([reflect], nil dereference). *)
Inductive PanicValue : Type :=
| PanicError (e : error)
| PanicRuntime (msg : string).

(** A Go call either returns or panics (the process terminates). *)
Inductive Outcome (A : Type) : Type :=
| Returned (a : A)
| Panicked (v : PanicValue).
Arguments Returned {A} a.
Arguments Panicked {A} v.

(** A method with receiver state [S]: it reads and updates the receiver and
    returns, or panics. *)
Definition M (S A : Type) : Type := S -> Outcome (A * S).

Definition ret {S A : Type} (a : A) : M S A := fun s => Returned (a, s).

Definition bind {S A B : Type} (m : M S A) (k : A -> M S B) : M S B :=
  fun s => match m s with
           | Returned (a, s') => k a s'
           | Panicked v => Panicked v
           end.

Definition panic {S A : Type} (v : PanicValue) : M S A := fun _ => Panicked v.

Notation "'let*' x ':=' m 'in' k" := (bind m (fun x => k))
  (at level 10, x pattern, m at level 100, k at level 200).

(** ** Values, struct types and [reflect] *)

(** The kinds of value a bin can hold. *)
Inductive kind : Type := KString | KNumber | KBool | KBytes | KList | KMap.

#[global] Instance kind_eq_dec : EqDecision kind.
Proof. solve_decision. Defined.

#[local] Set Warnings "-register-all".
Inductive Value : Type :=
| VString (s : string)
| VNumber (n : Z)
| VBool (b : bool)
| VBytes (bs : list Z)
| VList (vs : list Value)
| VMap (kvs : list (string * Value)).

Definition kindOf (v : Value) : kind :=
  match v with
  | VString _ => KString
  | VNumber _ => KNumber
  | VBool _ => KBool
  | VBytes _ => KBytes
  | VList _ => KList
  | VMap _ => KMap
  end.

(** Go's zero value of each kind. *)
Definition zeroValue (k : kind) : Value :=
  match k with
  | KString => VString ""
  | KNumber => VNumber 0
  | KBool => VBool false
  | KBytes => VBytes []
  | KList => VList []
  | KMap => VMap []
  end.

(** A struct field: its Go name, its [json] tag if it has one (the storage
    name: [init] makes the client use the [json] tags), and its kind. *)
Record StructField : Type := {
  fieldName : string;
  fieldTag : option string;
  fieldKind : kind
}.

Record StructType : Type := {
  structName : string;
  structFields : list StructField
}.

(** [reflect.Type], for the types that reach [Database.go]. *)
Inductive rtype : Type :=
| TStruct (s : StructType)
| TPtr (elem : rtype)
| TSlice (elem : rtype)
| TChan (name : string) (elem : rtype)
| TBasic (name : string) (k : kind)
| TArray (name : string) (len : nat) (elem : rtype)
| TMap (name : string) (key elem : rtype).

(** The example objects handed to [NewDatabase] are [interface{}] values of
    which only the dynamic type is read: [None] is the nil interface. *)
Definition example : Type := option rtype.

(** [reflect.TypeOf]: nil for the nil interface. *)
Definition reflect_TypeOf (i : example) : option rtype := i.

(** [Type.Elem]: the element type of a pointer, slice, channel, array or
    map type (for a map, the type of its values); it panics on any other kind,
    and calling it on a nil [reflect.Type] is a nil dereference. *)
Definition Elem (t : option rtype) : Outcome rtype :=
  match t with
  | None => Panicked (PanicRuntime "invalid memory address or nil pointer dereference")
  | Some (TPtr e) => Returned e
  | Some (TSlice e) => Returned e
  | Some (TChan _ e) => Returned e
  | Some (TArray _ _ e) => Returned e
  | Some (TMap _ _ e) => Returned e
  | Some (TStruct _) => Panicked (PanicRuntime "reflect: Elem of invalid type")
  | Some (TBasic _ _) => Panicked (PanicRuntime "reflect: Elem of invalid type")
  end.

(** [Type.Name]: the name of a defined type, empty for an unnamed one. *)
Definition Name (t : rtype) : string :=
  match t with
  | TStruct s => structName s
  | TPtr _ => ""
  | TSlice _ => ""
  | TChan n _ => n
  | TBasic n _ => n
  | TArray n _ _ => n
  | TMap n _ _ => n
  end.

(** The fields the codec maps: those of a struct, none for other types. *)
Definition fieldsOf (t : rtype) : list StructField :=
  match t with
  | TStruct s => structFields s
  | _ => []
  end.

(** A value behind a pointer: its type and one value per field. *)
Record Object : Type := {
  otype : rtype;
  ovals : list Value
}.

(** [reflect.New(t).Interface()]: a pointer to a fresh zero value of [t]. *)
Definition reflect_New (t : rtype) : Object :=
  {| otype := t; ovals := map (fun f => zeroValue (fieldKind f)) (fieldsOf t) |}.

(** [o] is an instance of its type: one value per field, of the field's
    kind. *)
Definition instanceOf (o : Object) : Prop :=
  Forall2 (fun f v => kindOf v = fieldKind f) (fieldsOf (otype o)) (ovals o).

(** A channel as the scan sees it: the element type, what has been sent on it
    so far, and whether it has been closed. *)
Record channel : Type := {
  chanElem : rtype;
  chanSent : list Object;
  chanClosed : bool
}.

(** What a caller can hand to [Scan], whose channel parameter is an
    [interface{}]: a channel, the [reflect.Value] of a channel, or anything
    else. *)
Inductive sink : Type :=
| SinkChan (c : channel)
| SinkValue (c : channel)
| SinkOther.

(** [reflect.MakeChan(typ, 0)]: the type must be a channel type; on a nil
    [reflect.Type] the kind test is a nil dereference. *)
Definition reflect_MakeChan (typ : option rtype) : Outcome channel :=
  match typ with
  | None => Panicked (PanicRuntime "invalid memory address or nil pointer dereference")
  | Some (TChan _ e) => Returned {| chanElem := e; chanSent := []; chanClosed := false |}
  | Some _ => Panicked (PanicRuntime "reflect.MakeChan of non-chan type")
  end.

(** ** The client library: keys and the object codec *)

(** [as.Key]: namespace, set name and user key. *)
Definition as_Key : Type := string * string * string.

Definition keyNamespace (k : as_Key) : string := k.1.1.
Definition keySetName (k : as_Key) : string := k.1.2.

(** [as.BinMap]: bin name to value. *)
Abbreviation as_BinMap := (gmap string Value).

(** Modelled from the spec: KeyBuilder.Build, which is [as.NewKey] of the
    client library (not part of the repository).  The id must be non-empty;
    otherwise no key is built and a key construction error is returned.  Like
    the Go function it returns the pair (key, error), one of them nil. *)
Definition as_NewKey (namespace setName id : string) : option as_Key * option error :=
  if decide (id = "") then (None, Some (KeyError "empty key"))
  else (Some (namespace, setName, id), None).

(** Modelled from the spec: RecordCodec.Encode, done inside [PutObject] by
    the client library.  It walks the declared fields in order and emits one
    bin per field that carries a storage tag, under the tag's name; fields
    without a tag are omitted. *)
Fixpoint marshalInto (bins : gmap string Value) (fs : list StructField) (vs : list Value)
  : gmap string Value :=
  match fs, vs with
  | f :: fs', v :: vs' =>
      marshalInto (match fieldTag f with
                   | Some n => <[n := v]> bins
                   | None => bins
                   end) fs' vs'
  | _, _ => bins
  end.

Definition Encode (o : Object) : gmap string Value :=
  marshalInto ∅ (fieldsOf (otype o)) (ovals o).

(** Modelled from the spec: RecordCodec.Decode, done inside [GetObject],
    [BatchGetObjects] and [ScanAllObjects] by the client library.  Each tagged
    field is set from the bin of its storage name; a bin no field names is
    ignored; a field whose bin is absent keeps the target's value; a bin of
    the wrong kind for its field stops the decoding with a decode error, the
    fields already set staying set. *)
Fixpoint populate (bins : gmap string Value) (fs : list StructField) (vs : list Value)
  : list Value * option error :=
  match fs, vs with
  | f :: fs', v :: vs' =>
      match fieldTag f with
      | None => let '(r, e) := populate bins fs' vs' in (v :: r, e)
      | Some n =>
          match bins !! n with
          | None => let '(r, e) := populate bins fs' vs' in (v :: r, e)
          | Some w =>
              if decide (kindOf w = fieldKind f)
              then let '(r, e) := populate bins fs' vs' in (w :: r, e)
              else (v :: vs', Some (DecodeError n))
          end
      end
  | _, _ => (vs, None)
  end.

Definition Decode (bins : gmap string Value) (target : Object) : Object * option error :=
  let '(vs, err) := populate bins (fieldsOf (otype target)) (ovals target) in
  ({| otype := otype target; ovals := vs |}, err).

(** ** The client library: policies, the cluster, the client *)

Inductive RecordExistsActionType : Type :=
| UPDATE | UPDATE_ONLY | REPLACE | REPLACE_ONLY | CREATE_ONLY.

Inductive PriorityType : Type := DEFAULT | LOW | MEDIUM | HIGH.

Record WritePolicy : Type := { RecordExistsAction : RecordExistsActionType }.

Record ScanPolicy : Type := {
  Priority : PriorityType;
  ConcurrentNodes : bool;
  IncludeBinData : bool
}.

Record ClientPolicy : Type := { ConnectionQueueSize : Z }.

(** [as.NewClientPolicy()]: the library's defaults. *)
Definition as_NewClientPolicy : ClientPolicy := {| ConnectionQueueSize := 256 |}.

(** The assignment [clientPolicy.ConnectionQueueSize = n]. *)
Definition setConnectionQueueSize (n : Z) (p : ClientPolicy) : ClientPolicy :=
  {| ConnectionQueueSize := n |}.

(** Result codes of the server the model produces itself. *)
Definition KEY_NOT_FOUND_ERROR : Z := 2.
Definition PARAMETER_ERROR : Z := 4.
Definition KEY_EXISTS_ERROR : Z := 5.

(** One request put on the wire. *)
Inductive Request : Type :=
| ReqGet (k : as_Key)
| ReqPut (k : as_Key) (bins : gmap string Value)
| ReqDelete (k : as_Key)
| ReqExists (k : as_Key)
| ReqBatchGet (ks : list as_Key)
| ReqScanAll (namespace setName : string)
| ReqTruncate (namespace setName : string).

(** Modelled from the spec: the remote store behind the collaborator's
    primitives (get, put, delete, exists, batchGet, scanAll, truncate).
    [records] is what the cluster holds; [wire] logs every request sent, in
    order, so that "no network call" is "[wire] unchanged"; [outages] is the
    schedule of failures: the n-th request from now fails with the result code
    at position n, if there is one. *)
Record Cluster : Type := {
  records : gmap as_Key (gmap string Value);
  outages : list (option Z);
  wire : list Request
}.

(** [as.Client]: the two default policies [NewDatabase] sets, and the cluster
    the client is connected to. *)
Record as_Client : Type := {
  DefaultWritePolicy : WritePolicy;
  DefaultScanPolicy : ScanPolicy;
  cluster : Cluster
}.

Definition gets {S A : Type} (f : S -> A) : M S A := fun s => Returned (f s, s).

Definition setRecords (rs : gmap as_Key (gmap string Value)) : M as_Client unit :=
  fun c => Returned (tt, {| DefaultWritePolicy := DefaultWritePolicy c;
                            DefaultScanPolicy := DefaultScanPolicy c;
                            cluster := {| records := rs;
                                          outages := outages (cluster c);
                                          wire := wire (cluster c) |} |}).

(** Modelled from the spec: one network round trip to the collaborator
    (a StoreError is any failure of it).  The request is logged and the next
    entry of the outage schedule decides whether it fails; a failed request
    leaves the stored records as they were. *)
Definition roundTrip (r : Request) : M as_Client (option error) :=
  fun c =>
    Returned (match outages (cluster c) with
              | Some code :: _ => Some (AerospikeError code)
              | _ => None
              end,
              {| DefaultWritePolicy := DefaultWritePolicy c;
                 DefaultScanPolicy := DefaultScanPolicy c;
                 cluster := {| records := records (cluster c);
                               outages := tail (outages (cluster c));
                               wire := wire (cluster c) ++ [r] |} |}).

(** The client reads the fields of the [*as.Key] it is given: a nil key is a
    nil dereference. *)
Definition deref {S A B : Type} (p : option A) (k : A -> M S B) : M S B :=
  match p with
  | Some a => k a
  | None => panic (PanicRuntime "invalid memory address or nil pointer dereference")
  end.

(** Modelled from the spec: primitive get(key) -> record|absent
    ([Client.Get]); an absent record is (nil, nil). *)
Definition Client_Get (key : option as_Key) : M as_Client (option (gmap string Value) * option error) :=
  deref key (fun k =>
    let* err := roundTrip (ReqGet k) in
    match err with
    | Some e => ret (None, Some e)
    | None => let* rec := gets (fun c => records (cluster c) !! k) in ret (rec, None)
    end).

(** Modelled from the spec: get followed by Decode into the caller's object
    ([Client.GetObject]); an absent record is a not-found error and leaves the
    object as it was, as does a failed request. *)
Definition Client_GetObject (key : option as_Key) (obj : Object) : M as_Client (Object * option error) :=
  deref key (fun k =>
    let* err := roundTrip (ReqGet k) in
    match err with
    | Some e => ret (obj, Some e)
    | None =>
        let* rec := gets (fun c => records (cluster c) !! k) in
        match rec with
        | None => ret (obj, Some (AerospikeError KEY_NOT_FOUND_ERROR))
        | Some bins => ret (Decode bins obj)
        end
    end).

(** Modelled from the spec: the collaborator's write policy (write mode
    "full replace, never merge-update").  Under [REPLACE] the new bins are
    stored alone; under [UPDATE], the library's default, they are merged into
    the old record; the [_ONLY] variants of the library refuse to create or to
    overwrite. *)
Definition applyPut (action : RecordExistsActionType) (old : option (gmap string Value))
    (bins : gmap string Value) : gmap string Value + Z :=
  match action, old with
  | UPDATE, Some o => inl (bins ∪ o)
  | UPDATE, None => inl bins
  | UPDATE_ONLY, Some o => inl (bins ∪ o)
  | UPDATE_ONLY, None => inr KEY_NOT_FOUND_ERROR
  | REPLACE, _ => inl bins
  | REPLACE_ONLY, Some _ => inl bins
  | REPLACE_ONLY, None => inr KEY_NOT_FOUND_ERROR
  | CREATE_ONLY, None => inl bins
  | CREATE_ONLY, Some _ => inr KEY_EXISTS_ERROR
  end.

(** Modelled from the spec: Encode followed by put(key, record)
    ([Client.PutObject] with the default write policy). *)
Definition Client_PutObject (key : option as_Key) (obj : Object) : M as_Client (option error) :=
  deref key (fun k =>
    let bins := Encode obj in
    let* err := roundTrip (ReqPut k bins) in
    match err with
    | Some e => ret (Some e)
    | None =>
        let* action := gets (fun c => RecordExistsAction (DefaultWritePolicy c)) in
        let* rs := gets (fun c => records (cluster c)) in
        match applyPut action (rs !! k) bins with
        | inl new => let* _ := setRecords (<[k := new]> rs) in ret None
        | inr code => ret (Some (AerospikeError code))
        end
    end).

(** Modelled from the spec: primitive delete(key) -> existed
    ([Client.Delete]). *)
Definition Client_Delete (key : option as_Key) : M as_Client (bool * option error) :=
  deref key (fun k =>
    let* err := roundTrip (ReqDelete k) in
    match err with
    | Some e => ret (false, Some e)
    | None =>
        let* rs := gets (fun c => records (cluster c)) in
        let* _ := setRecords (delete k rs) in
        ret (bool_decide (is_Some (rs !! k)), None)
    end).

(** Modelled from the spec: primitive exists(key) -> bool
    ([Client.Exists]). *)
Definition Client_Exists (key : option as_Key) : M as_Client (bool * option error) :=
  deref key (fun k =>
    let* err := roundTrip (ReqExists k) in
    match err with
    | Some e => ret (false, Some e)
    | None =>
        let* rs := gets (fun c => records (cluster c)) in
        ret (bool_decide (is_Some (rs !! k)), None)
    end).

(** The keys of a batch are all dereferenced before the request is sent. *)
Fixpoint derefAll (keys : list (option as_Key)) : option (list as_Key) :=
  match keys with
  | [] => Some []
  | None :: _ => None
  | Some k :: ks => match derefAll ks with
                    | Some r => Some (k :: r)
                    | None => None
                    end
  end.

(** Modelled from the spec: the answer of batchGet, aligned by index.  The
    record of [keys[i]], if there is one, is decoded into [objects[i]]; an
    absent record leaves its object untouched; a decode error stops the
    batch. *)
Fixpoint batchPopulate (rs : gmap as_Key (gmap string Value)) (keys : list as_Key)
    (objects : list Object) : list Object * option error :=
  match keys, objects with
  | k :: ks, o :: os =>
      match rs !! k with
      | None => let '(os', e) := batchPopulate rs ks os in (o :: os', e)
      | Some bins =>
          match Decode bins o with
          | (o', None) => let '(os', e) := batchPopulate rs ks os in (o' :: os', e)
          | (o', Some e) => (o' :: os, Some e)
          end
      end
  | _, _ => (objects, None)
  end.

(** Modelled from the spec: primitive batchGet(keys) -> records aligned by
    index, followed by Decode into the caller's objects
    ([Client.BatchGetObjects]).  The library refuses an empty batch and a
    batch whose keys and objects differ in number.  The objects are updated in
    place: the result lists them as they are after the call, with the found
    flags, which are nil when the call fails. *)
Definition Client_BatchGetObjects (keys : list (option as_Key)) (objects : list Object)
  : M as_Client (list Object * option (list bool) * option error) :=
  if bool_decide (length keys ≠ length objects ∨ length keys = 0%nat)
  then ret (objects, None, Some (AerospikeError PARAMETER_ERROR))
  else
    deref (derefAll keys) (fun ks =>
      let* err := roundTrip (ReqBatchGet ks) in
      match err with
      | Some e => ret (objects, None, Some e)
      | None =>
          let* rs := gets (fun c => records (cluster c)) in
          match batchPopulate rs ks objects with
          | (objects', None) =>
              ret (objects', Some (map (fun k => bool_decide (is_Some (rs !! k))) ks), None)
          | (objects', Some e) => ret (objects', None, Some e)
          end
      end).

Definition inSet (namespace setName : string) (k : as_Key) : Prop :=
  keyNamespace k = namespace ∧ keySetName k = setName.

#[global] Instance inSet_dec namespace setName k : Decision (inSet namespace setName k).
Proof. unfold inSet. apply _. Defined.

(** The struct a channel element points to. *)
Definition scanTarget (e : rtype) : rtype :=
  match e with
  | TPtr t => t
  | _ => e
  end.

(** Modelled from the spec: primitive scanAll(namespace, table) -> stream
    of records, decoded and pushed into the caller's channel, which is closed
    when every node is done ([Client.ScanAllObjects] with the default scan
    policy).  The concurrent producers are collapsed into the channel's final
    history: every record of the set, once, in the store's enumeration
    order.  The client reflects on the sink before it sends anything and
    panics on one that is not a channel. *)
Definition Client_ScanAllObjects (objChan : sink) (namespace setName : string)
  : M as_Client (channel * option error) :=
  match objChan with
  | SinkChan objChan =>
      let* err := roundTrip (ReqScanAll namespace setName) in
      match err with
      | Some e => ret (objChan, Some e)
      | None =>
          let* rs := gets (fun c => records (cluster c)) in
          let* withBins := gets (fun c => IncludeBinData (DefaultScanPolicy c)) in
          let recs := filter (fun kv => inSet namespace setName kv.1) (map_to_list rs) in
          let objs := map (fun kv : as_Key * gmap string Value =>
                             (Decode (if withBins then kv.2 else ∅)
                                     (reflect_New (scanTarget (chanElem objChan)))).1) recs in
          ret ({| chanElem := chanElem objChan;
                  chanSent := chanSent objChan ++ objs;
                  chanClosed := true |}, None)
      end
  | _ => panic (PanicRuntime "Scan/Query object channels should be of type `chan *T`")
  end.

(** Modelled from the spec: primitive truncate(namespace, table)
    ([Client.Truncate]). *)
Definition Client_Truncate (namespace setName : string) : M as_Client (option error) :=
  let* err := roundTrip (ReqTruncate namespace setName) in
  match err with
  | Some e => ret (Some e)
  | None =>
      let* rs := gets (fun c => records (cluster c)) in
      let* _ := setRecords (filter (fun kv => ¬ inSet namespace setName kv.1) rs) in
      ret None
  end.

(** How [NewDatabase] reaches a cluster: [as.NewClientWithPolicy], which
    returns a connected client or an error. *)
Definition Dialer : Type := ClientPolicy -> string -> Z -> option as_Client * option error.

(** ** [Database.go] *)

Record Database : Type := {
  namespace : string;
  types : gmap string rtype;
  Client : as_Client
}.

(** A call of a method of [db.Client] from a method of [db]. *)
Definition viaClient {A : Type} (m : M as_Client A) : M Database A :=
  fun db => match m (Client db) with
            | Returned (a, c) =>
                Returned (a, {| namespace := namespace db; types := types db; Client := c |})
            | Panicked v => Panicked v
            end.

(** The loop of [NewDatabase] over the example objects. *)
Fixpoint registerTables (tableTypes : gmap string rtype) (tables : list example)
  : Outcome (gmap string rtype) :=
  match tables with
  | [] => Returned tableTypes
  | example :: rest =>
      match Elem (reflect_TypeOf example) with
      | Returned typeInfo => registerTables (<[Name typeInfo := typeInfo]> tableTypes) rest
      | Panicked v => Panicked v
      end
  end.

Definition NewDatabase (dial : Dialer) (host : string) (port : Z) (namespace : string)
    (tables : list example) : Outcome Database :=
  match registerTables ∅ tables with
  | Panicked v => Panicked v
  | Returned tableTypes =>
      let clientPolicy := as_NewClientPolicy in
      let clientPolicy := setConnectionQueueSize 1024 clientPolicy in
      let '(client, err) := dial clientPolicy host port in
      match err with
      | Some e => Panicked (PanicError e)
      | None =>
          match client with
          | None => Panicked (PanicRuntime "invalid memory address or nil pointer dereference")
          | Some c =>
              let c := {| DefaultWritePolicy := {| RecordExistsAction := REPLACE |};
                          DefaultScanPolicy := DefaultScanPolicy c;
                          cluster := cluster c |} in
              let c := {| DefaultWritePolicy := DefaultWritePolicy c;
                          DefaultScanPolicy := {| Priority := HIGH;
                                                  ConcurrentNodes := true;
                                                  IncludeBinData := true |};
                          cluster := cluster c |} in
              Returned {| namespace := namespace; types := tableTypes; Client := c |}
          end
      end
  end.

(** The error [Get] and [GetMany] build for a table without a type. *)
Definition TypeNotRegisteredError (table : string) : error :=
  errors_New ("Data type has not been defined for table " +:+ table).

(** The error [GetMap] builds for an absent record. *)
Definition RecordNotFoundError : error := errors_New "Record not found".

Definition Get (table id : string) : M Database (option Object * option error) :=
  fun db =>
    let '(pk, keyErr) := as_NewKey (namespace db) table id in
    match keyErr with
    | Some e => Returned ((None, Some e), db)
    | None =>
        match types db !! table with
        | None => Returned ((None, Some (TypeNotRegisteredError table)), db)
        | Some t =>
            let obj := reflect_New t in
            (let* (obj', err) := viaClient (Client_GetObject pk obj) in
             ret (Some obj', err)) db
        end
    end.

Definition Set' (table id : string) (obj : Object) : M Database (option error) :=
  fun db =>
    let '(pk, keyErr) := as_NewKey (namespace db) table id in
    match keyErr with
    | Some e => Returned (Some e, db)
    | None => viaClient (Client_PutObject pk obj) db
    end.

Definition Delete (table id : string) : M Database (bool * option error) :=
  fun db =>
    let '(pk, keyErr) := as_NewKey (namespace db) table id in
    match keyErr with
    | Some e => Returned ((false, Some e), db)
    | None => viaClient (Client_Delete pk) db
    end.

Definition Exists (table id : string) : M Database (bool * option error) :=
  fun db =>
    let '(pk, keyErr) := as_NewKey (namespace db) table id in
    match keyErr with
    | Some e => Returned ((false, Some e), db)
    | None => viaClient (Client_Exists pk) db
    end.

Definition Scan (table : string) (channel_ : sink) : M Database (channel * option error) :=
  fun db => viaClient (Client_ScanAllObjects channel_ (namespace db) table) db.

(** [reflect.MakeChan] returns a [reflect.Value], and that value, not the
    channel inside it, is what the source hands to [Scan] and returns. *)
Definition All (table : string) : M Database (channel * option error) :=
  fun db =>
    match reflect_MakeChan (types db !! table) with
    | Panicked v => Panicked v
    | Returned channel_ =>
        (let* (_, err) := Scan table (SinkValue channel_) in
         ret (channel_, err)) db
    end.

Definition GetObject (table id : string) (obj : Object) : M Database (Object * option error) :=
  fun db =>
    let '(pk, keyErr) := as_NewKey (namespace db) table id in
    match keyErr with
    | Some e => Returned ((obj, Some e), db)
    | None => viaClient (Client_GetObject pk obj) db
    end.

Definition GetMap (table id : string) : M Database (option (gmap string Value) * option error) :=
  fun db =>
    let '(pk, keyErr) := as_NewKey (namespace db) table id in
    match keyErr with
    | Some e => Returned ((None, Some e), db)
    | None =>
        (let* (rec, err) := viaClient (Client_Get pk) in
         match err with
         | Some e => ret (None, Some e)
         | None =>
             match rec with
             | None => ret (None, Some RecordNotFoundError)
             | Some bins => ret (Some bins, None)
             end
         end) db
    end.

(** The slices of [GetMany].  [objects] is the backing slice of values; a
    pointer into it is the index of the element it addresses ([None] is nil),
    so that [pointers] and [interfaceSlice] alias [objects] as they do in the
    source. *)
Definition pointees (objects : list Object) (ptrs : list (option nat)) : list (option Object) :=
  map (fun p : option nat => p ≫= (fun j => objects !! j)) ptrs.

(** The objects [BatchGetObjects] is handed, through [interfaceSlice]. *)
Definition targets (objects : list Object) (interfaceSlice : list (option nat)) : list Object :=
  omap (fun p : option nat => p ≫= (fun j => objects !! j)) interfaceSlice.

(** The client writes through the pointers it was handed. *)
Definition writeBack (objects : list Object) (interfaceSlice : list (option nat))
    (written : list Object) : list Object :=
  fold_left (fun heap pv => <[pv.1 := pv.2]> heap)
            (zip (omap id interfaceSlice) written) objects.

(** The loop [for i := 0; i < num; i++] of [GetMany], entered at [i] with
    [count] iterations to go.  The error of [as.NewKey] is discarded. *)
Fixpoint getManyLoop (namespace table : string) (idList : list string) (count i : nat)
    (keys : list (option as_Key)) (pointers interfaceSlice : list (option nat))
  : list (option as_Key) * list (option nat) * list (option nat) :=
  match count with
  | O => (keys, pointers, interfaceSlice)
  | S count' =>
      let keys := <[i := (as_NewKey namespace table (idList !!! i)).1]> keys in
      let objAddr := Some i in
      let pointers := <[i := objAddr]> pointers in
      let interfaceSlice := <[i := objAddr]> interfaceSlice in
      getManyLoop namespace table idList count' (S i) keys pointers interfaceSlice
  end.

Definition GetMany (table : string) (idList : list string)
  : M Database (option (list (option Object)) * option error) :=
  fun db =>
    match types db !! table with
    | None => Returned ((None, Some (TypeNotRegisteredError table)), db)
    | Some t =>
        let num := length idList in
        let objects := replicate num (reflect_New t) in
        let pointers := replicate num None in
        if decide (num = 0%nat) then Returned ((Some (pointees objects pointers), None), db)
        else
          let keys := replicate num None in
          let interfaceSlice := replicate num None in
          let '(keys, pointers, interfaceSlice) :=
            getManyLoop (namespace db) table idList num 0 keys pointers interfaceSlice in
          (let* (written, _, err) :=
             viaClient (Client_BatchGetObjects keys (targets objects interfaceSlice)) in
           let objects := writeBack objects interfaceSlice written in
           match err with
           | Some e => ret (None, Some e)
           | None => ret (Some (pointees objects pointers), None)
           end) db
    end.

Definition DeleteTable (table : string) : M Database (option error) :=
  fun db => viaClient (Client_Truncate (namespace db) table) db.

Definition Namespace : M Database string := gets namespace.

Definition Type' (table : string) : M Database (option rtype) :=
  gets (fun db => types db !! table).

Definition Types : M Database (gmap string rtype) := gets types.

(** ** The public surface as data *)

(** One call of a public method, with its arguments. *)
Inductive call : Type :=
| CallGet (table id : string)
| CallSet (table id : string) (obj : Object)
| CallDelete (table id : string)
| CallExists (table id : string)
| CallScan (table : string) (channel_ : sink)
| CallAll (table : string)
| CallGetObject (table id : string) (obj : Object)
| CallGetMap (table id : string)
| CallGetMany (table : string) (idList : list string)
| CallDeleteTable (table : string)
| CallNamespace
| CallType (table : string)
| CallTypes.

(** The receiver after a method has run, its results dropped. *)
Definition after {A : Type} (m : M Database A) (db : Database) : Outcome Database :=
  match m db with
  | Returned (_, db') => Returned db'
  | Panicked v => Panicked v
  end.

Definition exec (c : call) (db : Database) : Outcome Database :=
  match c with
  | CallGet table id => after (Get table id) db
  | CallSet table id obj => after (Set' table id obj) db
  | CallDelete table id => after (Delete table id) db
  | CallExists table id => after (Exists table id) db
  | CallScan table channel_ => after (Scan table channel_) db
  | CallAll table => after (All table) db
  | CallGetObject table id obj => after (GetObject table id obj) db
  | CallGetMap table id => after (GetMap table id) db
  | CallGetMany table idList => after (GetMany table idList) db
  | CallDeleteTable table => after (DeleteTable table) db
  | CallNamespace => after Namespace db
  | CallType table => after (Type' table) db
  | CallTypes => after Types db
  end.

(** The databases a program can hold: built by [NewDatabase], then used
    through the public methods. *)
Inductive reachable : Database -> Prop :=
| reachable_new dial host port ns tables db :
    NewDatabase dial host port ns tables = Returned db -> reachable db
| reachable_call c db db' :
    reachable db -> exec c db = Returned db' -> reachable db'.

(** No request in the schedule is set to fail. *)
Definition healthy (db : Database) : Prop :=
  Forall (fun o => o = None) (outages (cluster (Client db))).

(** The record stored under a key. *)
Definition stored (db : Database) (k : as_Key) : option (gmap string Value) :=
  records (cluster (Client db)) !! k.

(** The storage names of the tagged fields of a type, in field order. *)
Definition storageNames (t : rtype) : list string :=
  omap fieldTag (fieldsOf t).

(** Two objects agree on every field that carries a storage tag. *)
Definition agreeOnTagged (o o' : Object) : Prop :=
  otype o' = otype o ∧
  ∀ (i : nat) (f : StructField) (n : string),
    fieldsOf (otype o) !! i = Some f -> fieldTag f = Some n ->
    ovals o' !! i = ovals o !! i.

(** The next request, if set to fail, and the result code it fails with. *)
Definition nextOutage (db : Database) : option Z :=
  match outages (cluster (Client db)) with
  | o :: _ => o
  | [] => None
  end.


(** What decoding the record of a key into a fresh [t] gives: the zero value
    when there is no record. *)
Definition decoded (rec : option (gmap string Value)) (t : rtype) : Object :=
  match rec with
  | Some bins => (Decode bins (reflect_New t)).1
  | None => reflect_New t
  end.

(** The configuration of a client: its two default policies. *)
Definition sameConfig (c c' : as_Client) : Prop :=
  DefaultWritePolicy c' = DefaultWritePolicy c ∧
  DefaultScanPolicy c' = DefaultScanPolicy c.

(** A client method that never touches the policies. *)
Definition keepsConfig {A : Type} (m : M as_Client A) : Prop :=
  ∀ c a c', m c = Returned (a, c') -> sameConfig c c'.

Ltac unfold_monad :=
  unfold bind, ret, gets, panic, deref, setRecords, roundTrip in *.

Ltac crush_config :=
  unfold keepsConfig, sameConfig; intros; unfold_monad;
  repeat (case_match; simplify_eq /=); auto.

(** The part of a database no method is meant to change. *)
Definition sameSetup (db db' : Database) : Prop :=
  namespace db' = namespace db ∧ types db' = types db ∧ sameConfig (Client db) (Client db').

(** The database after request [r] has gone out and the cluster holds [rs]. *)
Definition advance (r : Request) (rs : gmap as_Key (gmap string Value)) (db : Database)
  : Database :=
  {| namespace := namespace db;
     types := types db;
     Client := {| DefaultWritePolicy := DefaultWritePolicy (Client db);
                  DefaultScanPolicy := DefaultScanPolicy (Client db);
                  cluster := {| records := rs;
                                outages := tail (outages (cluster (Client db)));
                                wire := wire (cluster (Client db)) ++ [r] |} |} |}.

Ltac open_db db :=
  destruct db as [?ns ?reg [?wp ?sp [?rs ?os ?w]]]; unfold nextOutage, stored in *; simpl in *.

(** The requests on the wire once a method has returned. *)
Definition sent {A : Type} (m : M Database A) (db : Database) : option (list Request) :=
  match m db with
  | Returned (_, db') => Some (wire (cluster (Client db')))
  | Panicked _ => None
  end.

(** The methods that only read: every one but Set, Delete and DeleteTable. *)
Definition readOnly (c : call) : bool :=
  match c with
  | CallSet _ _ _ | CallDelete _ _ | CallDeleteTable _ => false
  | _ => true
  end.

(** A client method that leaves the stored records alone. *)
Definition keepsRecords {A : Type} (m : M as_Client A) : Prop :=
  ∀ c a c', m c = Returned (a, c') -> records (cluster c') = records (cluster c).

Ltac crush_records :=
  unfold keepsRecords; intros; unfold_monad;
  repeat (case_match; simplify_eq /=); auto.

(** The policy [NewDatabase] dials with. *)
Definition dialPolicy : ClientPolicy := setConnectionQueueSize 1024 as_NewClientPolicy.

(** The scan policy [NewDatabase] sets. *)
Definition fastScan : ScanPolicy :=
  {| Priority := HIGH; ConcurrentNodes := true; IncludeBinData := true |}.

(** An example object [NewDatabase] can take the element type of: a
    pointer, slice, channel, array or map. *)
Definition hasElem (ex : example) : Prop :=
  ∃ t, Elem (reflect_TypeOf ex) = Returned t.

(** ** Fixtures: the README's [User] table on a local node *)

Module Fixtures.

(** [type User struct { FirstName string `json:"firstName"` }] *)
Definition User : StructType :=
  {| structName := "User";
     structFields := [ {| fieldName := "FirstName"; fieldTag := Some "firstName";
                          fieldKind := KString |} ] |}.

(** A wider struct written to the same table: a second tagged field and an
    untagged one. *)
Definition Profile : StructType :=
  {| structName := "Profile";
     structFields := [ {| fieldName := "FirstName"; fieldTag := Some "firstName";
                          fieldKind := KString |};
                       {| fieldName := "Age"; fieldTag := Some "age";
                          fieldKind := KNumber |};
                       {| fieldName := "cached"; fieldTag := None;
                          fieldKind := KBool |} ] |}.

(** Two fields that share one storage name. *)
Definition Pair : StructType :=
  {| structName := "Pair";
     structFields := [ {| fieldName := "Left"; fieldTag := Some "side";
                          fieldKind := KString |};
                       {| fieldName := "Right"; fieldTag := Some "side";
                          fieldKind := KString |} ] |}.

Definition ann : Object := {| otype := TStruct User; ovals := [VString "Ann"] |}.

Definition bob : Object :=
  {| otype := TStruct Profile; ovals := [VString "Bob"; VNumber 41; VBool true] |}.

Definition leftRight : Object :=
  {| otype := TStruct Pair; ovals := [VString "l"; VString "r"] |}.

(** A node that listens on 127.0.0.1:3000, holds nothing and never fails;
    it hands out clients with the library's default policies. *)
Definition localCluster : Cluster := {| records := ∅; outages := []; wire := [] |}.

Definition localClient : as_Client :=
  {| DefaultWritePolicy := {| RecordExistsAction := UPDATE |};
     DefaultScanPolicy := {| Priority := DEFAULT; ConcurrentNodes := false;
                             IncludeBinData := false |};
     cluster := localCluster |}.

Definition localDial : Dialer :=
  fun _ host port =>
    if decide (host = "127.0.0.1" ∧ port = 3000%Z) then (Some localClient, None)
    else (None, Some (AerospikeError (-1))).

(** The connected client, as [NewDatabase] configures it. *)
Definition configured : as_Client :=
  {| DefaultWritePolicy := {| RecordExistsAction := REPLACE |};
     DefaultScanPolicy := {| Priority := HIGH; ConcurrentNodes := true;
                             IncludeBinData := true |};
     cluster := localCluster |}.

(** [NewDatabase("127.0.0.1", 3000, "test", []interface{}{new(User)})] *)
Definition db0 : Database :=
  {| namespace := "test"; types := {["User" := TStruct User]}; Client := configured |}.

(** The same with [Pair] registered too. *)
Definition dbPair : Database :=
  {| namespace := "test";
     types := <["Pair" := TStruct Pair]> {["User" := TStruct User]};
     Client := configured |}.

(** [db0] with the library's default write policy left in place. *)
Definition merging : Database :=
  {| namespace := "test"; types := {["User" := TStruct User]};
     Client := {| DefaultWritePolicy := {| RecordExistsAction := UPDATE |};
                  DefaultScanPolicy := DefaultScanPolicy configured;
                  cluster := localCluster |} |}.

(** [db0] on a node whose next request times out. *)
Definition flaky : Database :=
  {| namespace := "test"; types := {["User" := TStruct User]};
     Client := {| DefaultWritePolicy := DefaultWritePolicy configured;
                  DefaultScanPolicy := DefaultScanPolicy configured;
                  cluster := {| records := ∅; outages := [Some 9%Z]; wire := [] |} |} |}.

(** [db0] after [bob] has been stored under "123" of table [User]. *)
Definition afterBob : Database :=
  advance (ReqPut ("test", "User", "123") (Encode bob))
          (<[("test", "User", "123") := Encode bob]> ∅) db0.

(** ... and after [ann] has then been stored under the same key. *)
Definition afterAnn : Database :=
  advance (ReqPut ("test", "User", "123") (Encode ann))
          (<[("test", "User", "123") := Encode ann]> (records (cluster (Client afterBob))))
          afterBob.

(** [db0] after [ann] alone has been stored under "123". *)
Definition withAnn : Database :=
  advance (ReqPut ("test", "User", "123") (Encode ann))
          (<[("test", "User", "123") := Encode ann]> ∅) db0.

(** [dbPair] after [leftRight] has been stored under "1" of table [Pair]. *)
Definition afterPair : Database :=
  advance (ReqPut ("test", "Pair", "1") (Encode leftRight))
          (<[("test", "Pair", "1") := Encode leftRight]> ∅) dbPair.

(** What Get reads back from there. *)
Definition rightRight : Object :=
  {| otype := TStruct Pair; ovals := [VString "r"; VString "r"] |}.

(** A second table, registered after [User]. *)
Definition Post : StructType :=
  {| structName := "Post";
     structFields := [ {| fieldName := "Title"; fieldTag := Some "title";
                          fieldKind := KString |} ] |}.

(** A later struct that is also called [User]. *)
Definition User2 : StructType :=
  {| structName := "User";
     structFields := [ {| fieldName := "Nick"; fieldTag := Some "nick";
                          fieldKind := KString |} ] |}.

(** [NewDatabase] given [User], then [Post], then the second [User]. *)
Definition dbThree : Database :=
  {| namespace := "test";
     types := <["User" := TStruct User2]> (<["Post" := TStruct Post]> {["User" := TStruct User]});
     Client := configured |}.

(** A caller's own target for GetObject: a [Profile] with values in it. *)
Definition target : Object :=
  {| otype := TStruct Profile; ovals := [VString "?"; VNumber 7; VBool true] |}.

(** [db0] after [bob] has been stored under "9" of the unregistered table
    [Guest]. *)
Definition withGuest : Database :=
  advance (ReqPut ("test", "Guest", "9") (Encode bob))
          (<[("test", "Guest", "9") := Encode bob]> ∅) db0.

End Fixtures.

(** ** Keys *)

Lemma as_NewKey_cases namespace setName id :
  (id = "" ∧ as_NewKey namespace setName id = (None, Some (KeyError "empty key"))) ∨
  (id ≠ "" ∧ as_NewKey namespace setName id = (Some (namespace, setName, id), None)).
Proof. unfold as_NewKey. destruct (decide (id = "")); auto. Qed.

Lemma as_NewKey_ok namespace setName id pk :
  as_NewKey namespace setName id = (pk, None) -> pk = Some (namespace, setName, id).
Proof. destruct (as_NewKey_cases namespace setName id) as [[_ ->] | [_ ->]]; congruence. Qed.

Lemma as_NewKey_fails namespace setName id pk e :
  as_NewKey namespace setName id = (pk, Some e) -> pk = None.
Proof. destruct (as_NewKey_cases namespace setName id) as [[_ ->] | [_ ->]]; congruence. Qed.

Lemma NewDatabase_fixture :
  NewDatabase Fixtures.localDial "127.0.0.1" 3000 "test" [Some (TPtr (TStruct Fixtures.User))]
  = Returned Fixtures.db0.
Proof. reflexivity. Qed.

(** A key error comes back unchanged from each of the six single-key methods,
    and the database (its client and the wire with it) is as before. *)
Lemma key_error_returned db table id pk e :
  as_NewKey (namespace db) table id = (pk, Some e) ->
  Get table id db = Returned ((None, Some e), db) ∧
  (∀ obj, Set' table id obj db = Returned (Some e, db)) ∧
  Delete table id db = Returned ((false, Some e), db) ∧
  Exists table id db = Returned ((false, Some e), db) ∧
  (∀ obj, GetObject table id obj db = Returned ((obj, Some e), db)) ∧
  GetMap table id db = Returned ((None, Some e), db).
Proof.
  intros Hk. unfold Get, Set', Delete, Exists, GetObject, GetMap. rewrite Hk. auto 10.
Qed.

(** ** What the methods leave alone *)

Lemma Client_Get_keepsConfig key : keepsConfig (Client_Get key).
Proof. unfold Client_Get. crush_config. Qed.

Lemma Client_GetObject_keepsConfig key obj : keepsConfig (Client_GetObject key obj).
Proof. unfold Client_GetObject. crush_config. Qed.

Lemma Client_PutObject_keepsConfig key obj : keepsConfig (Client_PutObject key obj).
Proof. unfold Client_PutObject. crush_config. Qed.

Lemma Client_Delete_keepsConfig key : keepsConfig (Client_Delete key).
Proof. unfold Client_Delete. crush_config. Qed.

Lemma Client_Exists_keepsConfig key : keepsConfig (Client_Exists key).
Proof. unfold Client_Exists. crush_config. Qed.

Lemma Client_BatchGetObjects_keepsConfig keys objects :
  keepsConfig (Client_BatchGetObjects keys objects).
Proof. unfold Client_BatchGetObjects. crush_config. Qed.

Lemma Client_ScanAllObjects_keepsConfig objChan ns setName :
  keepsConfig (Client_ScanAllObjects objChan ns setName).
Proof. unfold Client_ScanAllObjects. crush_config. Qed.

Lemma Client_Truncate_keepsConfig ns setName : keepsConfig (Client_Truncate ns setName).
Proof. unfold Client_Truncate. crush_config. Qed.

Lemma sameSetup_refl db : sameSetup db db.
Proof. repeat split. Qed.

Lemma viaClient_sameSetup {A : Type} (m : M as_Client A) db a db' :
  keepsConfig m -> viaClient m db = Returned (a, db') -> sameSetup db db'.
Proof.
  intros Hm. unfold viaClient. destruct (m (Client db)) as [[a' c]|] eqn:E; [|done].
  intros [= <- <-]. repeat split; simpl; apply (Hm _ _ _ E).
Qed.

Create HintDb setup.

#[local] Hint Resolve sameSetup_refl Client_Get_keepsConfig Client_GetObject_keepsConfig
  Client_PutObject_keepsConfig Client_Delete_keepsConfig Client_Exists_keepsConfig
  Client_BatchGetObjects_keepsConfig Client_ScanAllObjects_keepsConfig
  Client_Truncate_keepsConfig : setup.

Lemma Get_sameSetup table id db r db' :
  Get table id db = Returned (r, db') -> sameSetup db db'.
Proof.
  unfold Get. destruct (as_NewKey _ _ _) as [pk [e|]].
  - intros [= <- <-]. auto with setup.
  - destruct (types db !! table) as [t|]; [|intros [= <- <-]; auto with setup].
    unfold bind, ret.
    destruct (viaClient _ db) as [[[o err] d]|] eqn:E; [|done].
    intros [= <- <-]. eapply viaClient_sameSetup; [|exact E]. auto with setup.
Qed.

Lemma Set_sameSetup table id obj db r db' :
  Set' table id obj db = Returned (r, db') -> sameSetup db db'.
Proof.
  unfold Set'. destruct (as_NewKey _ _ _) as [pk [e|]].
  - intros [= <- <-]. auto with setup.
  - apply viaClient_sameSetup. auto with setup.
Qed.

Lemma Delete_sameSetup table id db r db' :
  Delete table id db = Returned (r, db') -> sameSetup db db'.
Proof.
  unfold Delete. destruct (as_NewKey _ _ _) as [pk [e|]].
  - intros [= <- <-]. auto with setup.
  - apply viaClient_sameSetup. auto with setup.
Qed.

Lemma Exists_sameSetup table id db r db' :
  Exists table id db = Returned (r, db') -> sameSetup db db'.
Proof.
  unfold Exists. destruct (as_NewKey _ _ _) as [pk [e|]].
  - intros [= <- <-]. auto with setup.
  - apply viaClient_sameSetup. auto with setup.
Qed.

Lemma Scan_sameSetup table channel_ db r db' :
  Scan table channel_ db = Returned (r, db') -> sameSetup db db'.
Proof. unfold Scan. apply viaClient_sameSetup. auto with setup. Qed.

Lemma All_sameSetup table db r db' :
  All table db = Returned (r, db') -> sameSetup db db'.
Proof.
  unfold All. destruct (reflect_MakeChan _) as [channel_|]; [|done].
  unfold bind, ret. destruct (Scan _ _ db) as [[[c err] d]|] eqn:E; [|done].
  intros [= <- <-]. by eapply Scan_sameSetup.
Qed.

Lemma GetObject_sameSetup table id obj db r db' :
  GetObject table id obj db = Returned (r, db') -> sameSetup db db'.
Proof.
  unfold GetObject. destruct (as_NewKey _ _ _) as [pk [e|]].
  - intros [= <- <-]. auto with setup.
  - apply viaClient_sameSetup. auto with setup.
Qed.

Lemma GetMap_sameSetup table id db r db' :
  GetMap table id db = Returned (r, db') -> sameSetup db db'.
Proof.
  unfold GetMap. destruct (as_NewKey _ _ _) as [pk [e|]].
  - intros [= <- <-]. auto with setup.
  - unfold bind, ret.
    destruct (viaClient _ db) as [[[rec err] d]|] eqn:E; [|done].
    intros H. assert (d = db') as <- by (repeat case_match; congruence).
    eapply viaClient_sameSetup; [|exact E]. auto with setup.
Qed.

Lemma GetMany_sameSetup table idList db r db' :
  GetMany table idList db = Returned (r, db') -> sameSetup db db'.
Proof.
  unfold GetMany. destruct (types db !! table) as [t|]; [|intros [= <- <-]; auto with setup].
  case_decide; [intros [= <- <-]; auto with setup|].
  destruct (getManyLoop _ _ _ _ _ _ _ _) as [[keys ptrs] ifs].
  unfold bind, ret.
  destruct (viaClient _ db) as [[[[written found] err] d]|] eqn:E; [|done].
  intros Hr. assert (d = db') as <- by (repeat case_match; congruence).
  eapply viaClient_sameSetup; [|exact E]. auto with setup.
Qed.

Lemma DeleteTable_sameSetup table db r db' :
  DeleteTable table db = Returned (r, db') -> sameSetup db db'.
Proof. unfold DeleteTable. apply viaClient_sameSetup. auto with setup. Qed.

(** Every public method leaves namespace, registry and policies as they
    were. *)
Lemma exec_sameSetup c db db' : exec c db = Returned db' -> sameSetup db db'.
Proof.
  destruct c; simpl; unfold after;
    match goal with |- context [match ?m db with _ => _ end] =>
      destruct (m db) as [[r d]|] eqn:E; [|done] end;
    intros [= <-].
  - eapply Get_sameSetup; eauto.
  - eapply Set_sameSetup; eauto.
  - eapply Delete_sameSetup; eauto.
  - eapply Exists_sameSetup; eauto.
  - eapply Scan_sameSetup; eauto.
  - eapply All_sameSetup; eauto.
  - eapply GetObject_sameSetup; eauto.
  - eapply GetMap_sameSetup; eauto.
  - eapply GetMany_sameSetup; eauto.
  - eapply DeleteTable_sameSetup; eauto.
  - unfold Namespace, gets in E. injection E as <- <-. auto with setup.
  - unfold Type', gets in E. injection E as <- <-. auto with setup.
  - unfold Types, gets in E. injection E as <- <-. auto with setup.
Qed.

(** [NewDatabase] sets the write policy to full replace and the scan policy
    to high priority, all nodes at once, bins included. *)
Lemma NewDatabase_config dial host port ns tables db :
  NewDatabase dial host port ns tables = Returned db ->
  namespace db = ns ∧
  RecordExistsAction (DefaultWritePolicy (Client db)) = REPLACE ∧
  DefaultScanPolicy (Client db) =
    {| Priority := HIGH; ConcurrentNodes := true; IncludeBinData := true |}.
Proof.
  unfold NewDatabase. destruct (registerTables _ _); [|done].
  destruct (dial _ _ _) as [[c|] [e|]]; try done. intros [= <-]. auto.
Qed.

(** Every database a program can hold writes with full replace. *)
Lemma reachable_REPLACE db :
  reachable db -> RecordExistsAction (DefaultWritePolicy (Client db)) = REPLACE.
Proof.
  induction 1 as [dial host port ns tables db H | c db db' _ IH H].
  - apply (NewDatabase_config _ _ _ _ _ _ H).
  - apply exec_sameSetup in H as (_ & _ & -> & _). exact IH.
Qed.

(** ** The registry *)

(** Pointer-to-struct examples register struct types only. *)
Lemma registerTables_structs tables : ∀ acc reg,
  Forall (fun ex : example => ∃ s, ex = Some (TPtr (TStruct s))) tables ->
  (∀ name t, acc !! name = Some t -> ∃ s, t = TStruct s) ->
  registerTables acc tables = Returned reg ->
  ∀ name t, reg !! name = Some t -> ∃ s, t = TStruct s.
Proof.
  induction tables as [|ex rest IH]; intros acc reg Hall Hacc.
  - intros [= <-]. exact Hacc.
  - inversion Hall as [|? ? [s ->] Hrest]; subst. simpl. apply IH; [exact Hrest|].
    intros name t. destruct (decide (structName s = name)) as [<-|Hne].
    + rewrite lookup_insert_eq. intros [= <-]. eauto.
    + rewrite lookup_insert_ne by exact Hne. apply Hacc.
Qed.

(** C9: the table-to-type registry and the namespace are fixed at
    construction.  Whatever public method is called, with whatever arguments,
    the database it leaves behind has the namespace and the registry it had
    before; and Type, Types and Namespace return what the registry holds and
    leave the whole database, the client and the wire included, untouched (no
    I/O). *)
Theorem registry_and_namespace_fixed (c : call) (db db' : Database) :
  exec c db = Returned db' ->
  namespace db' = namespace db ∧ types db' = types db ∧
  match c with
  | CallNamespace | CallType _ | CallTypes => db' = db
  | _ => True
  end ∧
  Namespace db = Returned (namespace db, db) ∧
  (∀ table, Type' table db = Returned (types db !! table, db)) ∧
  Types db = Returned (types db, db).
Proof.
  intros H. pose proof (exec_sameSetup _ _ _ H) as (Hns & Hty & _).
  repeat split; try done.
  destruct c; try exact I; simpl in H; unfold after in H; simpl in H; congruence.
Qed.

(** ** Panics *)

(** C6: on a database built from pointer-to-struct examples, as the README
    builds it, All does not return a stream for any table: the registered
    type is the struct type, not a channel type, so [reflect.MakeChan] panics
    before the scan is started (and on a name without a type it dereferences
    nil). *)
Theorem All_panics_on_struct_tables (dial : Dialer) (host : string) (port : Z)
    (ns : string) (tables : list example) (db : Database) :
  NewDatabase dial host port ns tables = Returned db ->
  Forall (fun ex : example => ∃ s, ex = Some (TPtr (TStruct s))) tables ->
  ∀ table, ∃ v, All table db = Panicked v.
Proof.
  intros Hnew Hex table.
  assert (∀ name t, types db !! name = Some t -> ∃ s, t = TStruct s) as Hreg.
  { unfold NewDatabase in Hnew.
    destruct (registerTables ∅ tables) as [reg|] eqn:E; [|done].
    destruct (dial _ _ _) as [[c|] [e|]]; try done. injection Hnew as <-. simpl.
    eapply registerTables_structs; [exact Hex| |exact E].
    intros name t. rewrite lookup_empty. done. }
  unfold All. destruct (types db !! table) as [t|] eqn:E; simpl; [|eauto].
  destruct (Hreg _ _ E) as [s ->]. simpl. eauto.
Qed.

Lemma All_panics_on_struct_tables_witness :
  NewDatabase Fixtures.localDial "127.0.0.1" 3000 "test" [Some (TPtr (TStruct Fixtures.User))]
    = Returned Fixtures.db0 ∧
  ∃ v, All "User" Fixtures.db0 = Panicked v.
Proof.
  split; [reflexivity|].
  apply (All_panics_on_struct_tables Fixtures.localDial "127.0.0.1" 3000 "test"
           [Some (TPtr (TStruct Fixtures.User))] Fixtures.db0).
  - reflexivity.
  - repeat constructor. exists Fixtures.User. reflexivity.
Defined.

(** C8: a connection failure makes NewDatabase panic, but it is not the
    only input that terminates the process: with the node reachable, All on
    the registered table panics, and so does NewDatabase itself when it is
    given a struct value instead of a pointer. *)
Theorem panics_beyond_connectivity :
  NewDatabase Fixtures.localDial "10.0.0.9" 3000 "test" [Some (TPtr (TStruct Fixtures.User))]
    = Panicked (PanicError (AerospikeError (-1))) ∧
  NewDatabase Fixtures.localDial "127.0.0.1" 3000 "test" [Some (TPtr (TStruct Fixtures.User))]
    = Returned Fixtures.db0 ∧
  All "User" Fixtures.db0 = Panicked (PanicRuntime "reflect.MakeChan of non-chan type") ∧
  NewDatabase Fixtures.localDial "127.0.0.1" 3000 "test" [Some (TStruct Fixtures.User)]
    = Panicked (PanicRuntime "reflect: Elem of invalid type").
Proof. repeat split; reflexivity. Qed.

(** ** One request at a time *)

Lemma healthy_nextOutage db : healthy db -> nextOutage db = None.
Proof.
  unfold healthy, nextOutage. destruct (outages _); [done|]. by inversion 1.
Qed.

Lemma healthy_advance r rs db : healthy db -> healthy (advance r rs db).
Proof.
  unfold healthy, advance. simpl. destruct (outages _); [done|]. by inversion 1.
Qed.

Lemma stored_advance r rs db k : stored (advance r rs db) k = rs !! k.
Proof. reflexivity. Qed.

Lemma Set_spec db table id k obj :
  as_NewKey (namespace db) table id = (Some k, None) ->
  Set' table id obj db =
    Returned
      match nextOutage db with
      | Some code => (Some (AerospikeError code),
                      advance (ReqPut k (Encode obj)) (records (cluster (Client db))) db)
      | None =>
          match applyPut (RecordExistsAction (DefaultWritePolicy (Client db)))
                         (stored db k) (Encode obj) with
          | inl new => (None, advance (ReqPut k (Encode obj))
                                      (<[k := new]> (records (cluster (Client db)))) db)
          | inr code => (Some (AerospikeError code),
                         advance (ReqPut k (Encode obj)) (records (cluster (Client db))) db)
          end
      end.
Proof.
  intros Hk. unfold Set'. rewrite Hk. open_db db.
  unfold viaClient, Client_PutObject. unfold_monad. simpl.
  destruct os as [|[code|] os]; simpl; try reflexivity;
    destruct (applyPut _ _ _); reflexivity.
Qed.

Lemma Delete_spec db table id k :
  as_NewKey (namespace db) table id = (Some k, None) ->
  Delete table id db =
    Returned
      match nextOutage db with
      | Some code => ((false, Some (AerospikeError code)),
                      advance (ReqDelete k) (records (cluster (Client db))) db)
      | None => ((bool_decide (is_Some (stored db k)), None),
                 advance (ReqDelete k) (delete k (records (cluster (Client db)))) db)
      end.
Proof.
  intros Hk. unfold Delete. rewrite Hk. open_db db.
  unfold viaClient, Client_Delete. unfold_monad. simpl.
  destruct os as [|[code|] os]; reflexivity.
Qed.

Lemma Exists_spec db table id k :
  as_NewKey (namespace db) table id = (Some k, None) ->
  Exists table id db =
    Returned
      (match nextOutage db with
       | Some code => (false, Some (AerospikeError code))
       | None => (bool_decide (is_Some (stored db k)), None)
       end, advance (ReqExists k) (records (cluster (Client db))) db).
Proof.
  intros Hk. unfold Exists. rewrite Hk. open_db db.
  unfold viaClient, Client_Exists. unfold_monad. simpl.
  destruct os as [|[code|] os]; reflexivity.
Qed.

Lemma GetMap_spec db table id k :
  as_NewKey (namespace db) table id = (Some k, None) ->
  GetMap table id db =
    Returned
      (match nextOutage db with
       | Some code => (None, Some (AerospikeError code))
       | None =>
           match stored db k with
           | Some bins => (Some bins, None)
           | None => (None, Some RecordNotFoundError)
           end
       end, advance (ReqGet k) (records (cluster (Client db))) db).
Proof.
  intros Hk. unfold GetMap. rewrite Hk. open_db db.
  unfold viaClient, Client_Get. unfold_monad. simpl.
  destruct os as [|[code|] os]; simpl; try reflexivity;
    destruct (rs !! k); reflexivity.
Qed.

Lemma GetObject_spec db table id k obj :
  as_NewKey (namespace db) table id = (Some k, None) ->
  GetObject table id obj db =
    Returned
      (match nextOutage db with
       | Some code => (obj, Some (AerospikeError code))
       | None =>
           match stored db k with
           | Some bins => Decode bins obj
           | None => (obj, Some (AerospikeError KEY_NOT_FOUND_ERROR))
           end
       end, advance (ReqGet k) (records (cluster (Client db))) db).
Proof.
  intros Hk. unfold GetObject. rewrite Hk. open_db db.
  unfold viaClient, Client_GetObject. unfold_monad. simpl.
  destruct os as [|[code|] os]; simpl; try reflexivity;
    destruct (rs !! k); reflexivity.
Qed.

Lemma Get_spec db table id k t :
  as_NewKey (namespace db) table id = (Some k, None) ->
  types db !! table = Some t ->
  Get table id db =
    Returned
      (match nextOutage db with
       | Some code => (Some (reflect_New t), Some (AerospikeError code))
       | None =>
           match stored db k with
           | Some bins => (Some (Decode bins (reflect_New t)).1,
                           (Decode bins (reflect_New t)).2)
           | None => (Some (reflect_New t), Some (AerospikeError KEY_NOT_FOUND_ERROR))
           end
       end, advance (ReqGet k) (records (cluster (Client db))) db).
Proof.
  intros Hk Ht. unfold Get. rewrite Hk, Ht. open_db db.
  unfold viaClient, Client_GetObject. unfold_monad. simpl.
  destruct os as [|[code|] os]; simpl; try reflexivity;
    destruct (rs !! k) as [bins|]; try reflexivity;
    destruct (Decode bins _); reflexivity.
Qed.

(** ** Tables without a registered type *)




(** ** What comes back with an error *)

(** Decoding fails with a decode error only. *)
Lemma populate_error bins fs : ∀ vs r e,
  populate bins fs vs = (r, Some e) -> ∃ n, e = DecodeError n.
Proof.
  induction fs as [|f fs IH]; intros [|v vs] r e; simpl; try done.
  destruct (fieldTag f) as [n|].
  - destruct (bins !! n) as [w|].
    + case_decide.
      * destruct (populate bins fs vs) as [r' e'] eqn:E. intros [= <- ->]. eauto.
      * intros [= <- <-]. eauto.
    + destruct (populate bins fs vs) as [r' e'] eqn:E. intros [= <- ->]. eauto.
  - destruct (populate bins fs vs) as [r' e'] eqn:E. intros [= <- ->]. eauto.
Qed.

(** ** Writes and deletes *)

(** A Set that returns no error was given an id a key can be built from. *)
Lemma Set_ok_key db table id obj db' :
  Set' table id obj db = Returned (None, db') ->
  as_NewKey (namespace db) table id = (Some (namespace db, table, id), None).
Proof.
  unfold Set'. destruct (as_NewKey_cases (namespace db) table id) as [[_ ->] | [_ ->]]; done.
Qed.

(** A Set that returns no error went through: the request did not fail and
    the write policy accepted it. *)
Lemma Set_ok_inv db table id obj db' :
  Set' table id obj db = Returned (None, db') ->
  let k := (namespace db, table, id) in
  ∃ new,
    applyPut (RecordExistsAction (DefaultWritePolicy (Client db))) (stored db k) (Encode obj)
      = inl new ∧
    db' = advance (ReqPut k (Encode obj)) (<[k := new]> (records (cluster (Client db)))) db.
Proof.
  intros H k. pose proof (Set_ok_key _ _ _ _ _ H) as Hk.
  rewrite (Set_spec _ _ _ _ _ Hk) in H.
  destruct (nextOutage db); [done|].
  destruct (applyPut _ _ _) as [new|]; [|done]. injection H as <-. eauto.
Qed.

(** Whatever the record-exists action, an accepted put stores every new
    bin. *)
Lemma applyPut_includes action old bins new n v :
  applyPut action old bins = inl new -> bins !! n = Some v -> new !! n = Some v.
Proof.
  destruct action, old; simpl; intros [= <-] Hb; try done;
    by apply lookup_union_Some_l.
Qed.

(** C1: writes are full replace.  On a database built by NewDatabase and
    used through its methods, after Set(table, id, o1) and then
    Set(table, id, o2) have both returned without error, the record stored
    under the key is exactly the encoding of o2; a GetMap whose request does
    not fail returns that encoding; and no map GetMap returns holds a field
    that o2's encoding lacks, whatever o1's encoding held. *)
Theorem Set_is_full_replace (db db1 db2 : Database) (table id : string) (o1 o2 : Object) :
  reachable db ->
  Set' table id o1 db = Returned (None, db1) ->
  Set' table id o2 db1 = Returned (None, db2) ->
  stored db2 (namespace db, table, id) = Some (Encode o2) ∧
  (nextOutage db2 = None ->
     ∃ db3, GetMap table id db2 = Returned ((Some (Encode o2), None), db3)) ∧
  (∀ bins err db3 f,
     GetMap table id db2 = Returned ((Some bins, err), db3) ->
     Encode o2 !! f = None -> bins !! f = None).
Proof.
  intros Hreach H1 H2.
  assert (reachable db1) as Hreach1.
  { apply (reachable_call (CallSet table id o1) db); [exact Hreach|].
    simpl. unfold after. by rewrite H1. }
  pose proof (reachable_REPLACE _ Hreach1) as Hpol.
  pose proof (Set_sameSetup _ _ _ _ _ _ H1) as (Hns1 & _).
  pose proof (Set_sameSetup _ _ _ _ _ _ H2) as (Hns2 & _).
  destruct (Set_ok_inv _ _ _ _ _ H2) as (new & Hput & Hdb2).
  rewrite Hpol in Hput. simpl in Hput. injection Hput as <-.
  pose proof (Set_ok_key _ _ _ _ _ H2) as Hk. rewrite <- Hns2 in Hk.
  assert (stored db2 (namespace db, table, id) = Some (Encode o2)) as Hst.
  { rewrite Hdb2, stored_advance, <- Hns1. apply lookup_insert_eq. }
  split; [exact Hst|]. rewrite <- Hns1, <- Hns2 in Hst. split.
  - intros Hup. rewrite (GetMap_spec _ _ _ _ Hk), Hup, Hst. eauto.
  - intros bins err db3 f. rewrite (GetMap_spec _ _ _ _ Hk).
    destruct (nextOutage db2); [done|]. rewrite Hst. by intros [= <- _ _].
Qed.

Lemma Set_is_full_replace_witness :
  reachable Fixtures.db0 ∧
  Set' "User" "123" Fixtures.bob Fixtures.db0 = Returned (None, Fixtures.afterBob) ∧
  Set' "User" "123" Fixtures.ann Fixtures.afterBob = Returned (None, Fixtures.afterAnn) ∧
  stored Fixtures.afterAnn ("test", "User", "123") = Some (Encode Fixtures.ann) ∧
  Encode Fixtures.bob !! "age" = Some (VNumber 41) ∧
  ∀ bins err db3,
    GetMap "User" "123" Fixtures.afterAnn = Returned ((Some bins, err), db3) ->
    bins !! "age" = None.
Proof.
  assert (reachable Fixtures.db0) as Hreach.
  { apply (reachable_new Fixtures.localDial "127.0.0.1" 3000 "test"
             [Some (TPtr (TStruct Fixtures.User))]). reflexivity. }
  destruct (Set_is_full_replace Fixtures.db0 Fixtures.afterBob Fixtures.afterAnn
              "User" "123" Fixtures.bob Fixtures.ann Hreach eq_refl eq_refl)
    as (Hst & _ & Hmap).
  split; [exact Hreach|]. split; [reflexivity|]. split; [reflexivity|].
  split; [exact Hst|]. split; [reflexivity|].
  intros bins err db3 H. apply (Hmap bins err db3 "age" H). reflexivity.
Defined.

(** C7: the existence flag of Delete.  After a Set that returned without
    error, and with no request set to fail, the first Delete of the id
    returns (true, nil) and a second Delete of it returns (false, nil); and a
    Delete of a key that holds no record returns (false, nil): absence is
    reported by the flag, not by an error. *)
Theorem Delete_existed_once (db db1 : Database) (table id : string) (obj : Object) :
  Set' table id obj db = Returned (None, db1) ->
  healthy db1 ->
  (∃ db2 db3,
     Delete table id db1 = Returned ((true, None), db2) ∧
     Delete table id db2 = Returned ((false, None), db3)) ∧
  (∀ dbx, namespace dbx = namespace db -> nextOutage dbx = None ->
     stored dbx (namespace db, table, id) = None ->
     ∃ dbx', Delete table id dbx = Returned ((false, None), dbx')).
Proof.
  intros HSet Hh.
  pose proof (Set_ok_key _ _ _ _ _ HSet) as Hk.
  pose proof (Set_sameSetup _ _ _ _ _ _ HSet) as (Hns1 & _).
  destruct (Set_ok_inv _ _ _ _ _ HSet) as (new & _ & Hdb1).
  assert (stored db1 (namespace db, table, id) = Some new) as Hst1.
  { rewrite Hdb1, stored_advance. apply lookup_insert_eq. }
  split.
  - rewrite <- Hns1 in Hk.
    rewrite (Delete_spec _ _ _ _ Hk), (healthy_nextOutage _ Hh), Hns1, Hst1.
    do 2 eexists. split; [reflexivity|].
    set (db2 := advance _ _ db1).
    assert (as_NewKey (namespace db2) table id = (Some (namespace db, table, id), None)) as Hk2.
    { subst db2. simpl. rewrite <- Hns1. exact Hk. }
    rewrite (Delete_spec _ _ _ _ Hk2).
    rewrite (healthy_nextOutage db2) by (apply healthy_advance; exact Hh).
    subst db2. rewrite stored_advance, lookup_delete_eq. reflexivity.
  - intros dbx Hnsx Hup Hno. rewrite <- Hnsx in Hk.
    rewrite (Delete_spec _ _ _ _ Hk), Hup, Hnsx, Hno. eauto.
Qed.

Lemma Delete_existed_once_witness :
  Set' "User" "123" Fixtures.ann Fixtures.db0 = Returned (None, Fixtures.withAnn) ∧
  healthy Fixtures.withAnn ∧
  ∃ db2 db3,
    Delete "User" "123" Fixtures.withAnn = Returned ((true, None), db2) ∧
    Delete "User" "123" db2 = Returned ((false, None), db3).
Proof.
  split; [reflexivity|]. split; [apply Forall_nil_2|].
  apply (Delete_existed_once Fixtures.db0 Fixtures.withAnn "User" "123" Fixtures.ann
           eq_refl (Forall_nil_2 _)).
Defined.

Lemma registry_and_namespace_fixed_witness :
  exec (CallSet "User" "123" Fixtures.ann) Fixtures.db0 = Returned Fixtures.withAnn ∧
  namespace Fixtures.withAnn = namespace Fixtures.db0 ∧
  types Fixtures.withAnn = types Fixtures.db0.
Proof.
  split; [reflexivity|].
  destruct (registry_and_namespace_fixed (CallSet "User" "123" Fixtures.ann)
              Fixtures.db0 Fixtures.withAnn eq_refl) as (Hns & Hty & _).
  split; [exact Hns | exact Hty].
Defined.

(** ** The codec *)

Lemma marshalInto_notin fs : ∀ vs acc n,
  n ∉ omap fieldTag fs -> marshalInto acc fs vs !! n = acc !! n.
Proof.
  induction fs as [|f fs IH]; intros [|v vs] acc n Hn; simpl; try done.
  simpl in Hn. destruct (fieldTag f) as [m|]; simpl in Hn.
  - apply not_elem_of_cons in Hn as [Hne Hn]. rewrite IH by exact Hn.
    by rewrite lookup_insert_ne.
  - by apply IH.
Qed.

(** With distinct storage names, the encoding holds every tagged field under
    its name. *)
Lemma marshalInto_lookup fs : ∀ vs acc i f n v,
  NoDup (omap fieldTag fs) ->
  fs !! i = Some f -> fieldTag f = Some n -> vs !! i = Some v ->
  marshalInto acc fs vs !! n = Some v.
Proof.
  induction fs as [|g fs IH]; intros [|w vs] acc i f n v Hnd Hf Hn Hv; try done.
  destruct i as [|i]; simpl in *.
  - injection Hf as ->. injection Hv as ->. rewrite Hn in *. simpl in Hnd.
    apply NoDup_cons in Hnd as [Hnotin _].
    rewrite marshalInto_notin by exact Hnotin. apply lookup_insert_eq.
  - apply (IH vs _ i f); try done.
    destruct (fieldTag g); simpl in Hnd; [by apply NoDup_cons in Hnd as [_ ?]|done].
Qed.

(** Decoding succeeds when every bin a field names has the field's kind; a
    tagged field is then set from its bin, and every other field keeps the
    target's value. *)
Lemma populate_decodes bins fs : ∀ ws,
  length ws = length fs ->
  (∀ i f n w, fs !! i = Some f -> fieldTag f = Some n -> bins !! n = Some w ->
              kindOf w = fieldKind f) ->
  ∃ r, populate bins fs ws = (r, None) ∧
       ∀ i f, fs !! i = Some f ->
              r !! i = match fieldTag f ≫= (fun n => bins !! n) with
                       | Some w => Some w
                       | None => ws !! i
                       end.
Proof.
  induction fs as [|f fs IH]; intros [|w ws] Hlen Hk; simpl in *; try done.
  - exists []. split; [done|]. by intros [|i].
  - destruct (IH ws) as (r & Hr & Hlook); [lia | |].
    { intros i g n v Hg. apply (Hk (S i) g n v Hg). }
    rewrite Hr.
    destruct (fieldTag f) as [n|] eqn:Hn.
    + destruct (bins !! n) as [v|] eqn:Hb.
      * rewrite decide_True by (by apply (Hk 0%nat f n v)).
        eexists. split; [reflexivity|].
        intros [|i] g; simpl; [|by apply Hlook]. intros [= <-]. rewrite Hn. simpl. by rewrite Hb.
      * eexists. split; [reflexivity|].
        intros [|i] g; simpl; [|by apply Hlook]. intros [= <-]. rewrite Hn. simpl. by rewrite Hb.
    + eexists. split; [reflexivity|].
      intros [|i] g; simpl; [|by apply Hlook]. intros [= <-]. by rewrite Hn.
Qed.

(** Decoding a record that holds the encoding of [o] (and maybe more bins)
    into a fresh value of [o]'s type gives [o] back on the tagged fields,
    provided the storage names are distinct. *)
Lemma Decode_Encode o rec :
  instanceOf o -> NoDup (storageNames (otype o)) ->
  (∀ n v, Encode o !! n = Some v -> rec !! n = Some v) ->
  ∃ o', Decode rec (reflect_New (otype o)) = (o', None) ∧ agreeOnTagged o o'.
Proof.
  intros Hinst Hnd Hsub. unfold Decode, instanceOf, storageNames, Encode in *. simpl.
  assert (∀ i f n, fieldsOf (otype o) !! i = Some f -> fieldTag f = Some n ->
            ∃ v, ovals o !! i = Some v ∧ kindOf v = fieldKind f ∧ rec !! n = Some v) as Hfield.
  { intros i f n Hf Hn.
    destruct (Forall2_lookup_l _ _ _ _ _ Hinst Hf) as (v & Hv & Hkind).
    exists v. repeat split; try done. apply Hsub. by eapply marshalInto_lookup. }
  destruct (populate_decodes rec (fieldsOf (otype o))
              (map (fun f => zeroValue (fieldKind f)) (fieldsOf (otype o)))) as (r & Hr & Hlook).
  - by rewrite length_map.
  - intros i f n w Hf Hn Hw. destruct (Hfield i f n Hf Hn) as (v & _ & Hkind & Hv). congruence.
  - rewrite Hr. eexists. split; [reflexivity|]. split; [reflexivity|]. simpl.
    intros i f n Hf Hn. destruct (Hfield i f n Hf Hn) as (v & Hv & _ & Hrec).
    rewrite (Hlook i f Hf), Hn. simpl. by rewrite Hrec.
Qed.

(** C2, as the code has it: round trip.  For a table registered with type
    T whose storage names are pairwise distinct and an instance o of T, after
    Set(table, id, o) has returned without error and with no write in
    between, a Get whose request does not fail returns, without error, an
    object of type T equal to o on every field that carries a storage tag. *)
Theorem Set_then_Get_round_trip (db db1 : Database) (table id : string) (o : Object) :
  types db !! table = Some (otype o) ->
  instanceOf o ->
  NoDup (storageNames (otype o)) ->
  Set' table id o db = Returned (None, db1) ->
  nextOutage db1 = None ->
  ∃ o' db2, Get table id db1 = Returned ((Some o', None), db2) ∧ agreeOnTagged o o'.
Proof.
  intros Ht Hinst Hnd HSet Hup.
  pose proof (Set_ok_key _ _ _ _ _ HSet) as Hk.
  pose proof (Set_sameSetup _ _ _ _ _ _ HSet) as (Hns1 & Hty1 & _).
  destruct (Set_ok_inv _ _ _ _ _ HSet) as (new & Hput & Hdb1).
  assert (stored db1 (namespace db, table, id) = Some new) as Hst1.
  { rewrite Hdb1, stored_advance. apply lookup_insert_eq. }
  destruct (Decode_Encode o new Hinst Hnd) as (o' & Hdec & Hagree).
  { intros n v. by apply applyPut_includes with (1 := Hput). }
  rewrite <- Hns1 in Hk. rewrite <- Hty1 in Ht.
  rewrite (Get_spec _ _ _ _ _ Hk Ht), Hup, Hns1, Hst1, Hdec. simpl. eauto.
Qed.

Lemma Set_then_Get_round_trip_witness :
  types Fixtures.db0 !! "User" = Some (otype Fixtures.ann) ∧
  instanceOf Fixtures.ann ∧
  NoDup (storageNames (otype Fixtures.ann)) ∧
  Set' "User" "123" Fixtures.ann Fixtures.db0 = Returned (None, Fixtures.withAnn) ∧
  nextOutage Fixtures.withAnn = None ∧
  ∃ o' db2, Get "User" "123" Fixtures.withAnn = Returned ((Some o', None), db2) ∧
            agreeOnTagged Fixtures.ann o'.
Proof.
  assert (instanceOf Fixtures.ann) as Hinst by (repeat constructor).
  assert (NoDup (storageNames (otype Fixtures.ann))) as Hnd
    by (apply NoDup_cons; split; [apply not_elem_of_nil | apply NoDup_nil_2]).
  split; [reflexivity|]. split; [exact Hinst|]. split; [exact Hnd|].
  split; [reflexivity|]. split; [reflexivity|].
  apply (Set_then_Get_round_trip Fixtures.db0 Fixtures.withAnn "User" "123" Fixtures.ann
           eq_refl Hinst Hnd eq_refl eq_refl).
Defined.

(** C2 as stated fails: [Pair] is registered, [leftRight] is an instance of
    it, Set and Get both succeed, and the object read back differs from the
    one written on the tagged field [Left], whose storage name the field
    [Right] carries too. *)
Lemma round_trip_shared_storage_name :
  types Fixtures.dbPair !! "Pair" = Some (otype Fixtures.leftRight) ∧
  instanceOf Fixtures.leftRight ∧
  Set' "Pair" "1" Fixtures.leftRight Fixtures.dbPair = Returned (None, Fixtures.afterPair) ∧
  Get "Pair" "1" Fixtures.afterPair
    = Returned ((Some Fixtures.rightRight, None),
                advance (ReqGet ("test", "Pair", "1"))
                        (records (cluster (Client Fixtures.afterPair))) Fixtures.afterPair) ∧
  ¬ agreeOnTagged Fixtures.leftRight Fixtures.rightRight.
Proof.
  split; [reflexivity|]. split; [repeat constructor|].
  split; [reflexivity|]. split; [reflexivity|].
  intros [_ H]. specialize (H 0%nat _ "side" eq_refl eq_refl). discriminate H.
Qed.

(** ** The batch read *)

(** The loop of [GetMany] fills the three slices from left to right: the
    key of [idList[i]], nil when none can be built, and the address of
    [objects[i]], twice. *)
Lemma getManyLoop_fills ns table rest : ∀ done_ keys ptrs ifs,
  length keys = length done_ -> length ptrs = length done_ -> length ifs = length done_ ->
  getManyLoop ns table (done_ ++ rest) (length rest) (length done_)
    (keys ++ replicate (length rest) None)
    (ptrs ++ replicate (length rest) None)
    (ifs ++ replicate (length rest) None)
  = (keys ++ map (fun id => (as_NewKey ns table id).1) rest,
     ptrs ++ map Some (seq (length done_) (length rest)),
     ifs ++ map Some (seq (length done_) (length rest))).
Proof.
  induction rest as [|id rest IH]; intros done_ keys ptrs ifs Hk Hp Hi; simpl.
  - by rewrite !app_nil_r.
  - rewrite !insert_app_r_alt by lia. rewrite Hk, Hp, Hi, Nat.sub_diag. simpl.
    rewrite list_lookup_total_middle by done.
    specialize (IH (done_ ++ [id]) (keys ++ [(as_NewKey ns table id).1])
                   (ptrs ++ [Some (length done_)]) (ifs ++ [Some (length done_)])).
    rewrite !length_app in IH. simpl in IH. rewrite !Nat.add_1_r in IH.
    rewrite <- !app_assoc in IH. simpl in IH. apply IH; lia.
Qed.

Lemma getManyLoop_all ns table idList :
  getManyLoop ns table idList (length idList) 0
    (replicate (length idList) None) (replicate (length idList) None)
    (replicate (length idList) None)
  = (map (fun id => (as_NewKey ns table id).1) idList,
     map Some (seq 0 (length idList)),
     map Some (seq 0 (length idList))).
Proof. apply (getManyLoop_fills ns table idList [] [] [] []); reflexivity. Qed.

(** The pointers [0 .. n-1] into a slice of length [n] address its elements
    in order. *)
Lemma targets_seq objs : ∀ pre,
  targets (pre ++ objs) (map Some (seq (length pre) (length objs))) = objs.
Proof.
  unfold targets. induction objs as [|o objs IH]; intros pre; simpl; [done|].
  rewrite list_lookup_middle by done. simpl. f_equal.
  specialize (IH (pre ++ [o])). rewrite length_app, <- app_assoc in IH. simpl in IH.
  by rewrite Nat.add_1_r in IH.
Qed.

Lemma pointees_seq objs : ∀ pre,
  pointees (pre ++ objs) (map Some (seq (length pre) (length objs))) = map Some objs.
Proof.
  unfold pointees. induction objs as [|o objs IH]; intros pre; simpl; [done|].
  rewrite list_lookup_middle by done. f_equal.
  specialize (IH (pre ++ [o])). rewrite length_app, <- app_assoc in IH. simpl in IH.
  by rewrite Nat.add_1_r in IH.
Qed.

Lemma writeBack_seq written : ∀ pre rest,
  length rest = length written ->
  writeBack (pre ++ rest) (map Some (seq (length pre) (length written))) written
  = pre ++ written.
Proof.
  unfold writeBack. induction written as [|o written IH]; intros pre [|r rest] Hlen;
    simpl in *; try done.
  rewrite insert_app_r_alt by lia. rewrite Nat.sub_diag. simpl.
  specialize (IH (pre ++ [o]) rest). rewrite length_app, <- !app_assoc in IH. simpl in IH.
  rewrite Nat.add_1_r in IH. apply IH. lia.
Qed.

(** A batch whose keys are all non-nil was built from ids that all give a
    key. *)
Lemma derefAll_keys ns table idList : ∀ ks,
  derefAll (map (fun id => (as_NewKey ns table id).1) idList) = Some ks ->
  ks = map (fun id => (ns, table, id)) idList.
Proof.
  induction idList as [|id idList IH]; intros ks; simpl; [by intros [= <-]|].
  destruct (as_NewKey_cases ns table id) as [[_ ->] | [_ ->]]; simpl; [done|].
  destruct (derefAll _) as [r|]; [|done]. intros [= <-]. f_equal. by apply IH.
Qed.

Lemma batchPopulate_length rs ks : ∀ objects objects' e,
  batchPopulate rs ks objects = (objects', e) -> length objects' = length objects.
Proof.
  induction ks as [|k ks IH]; intros [|o os] objects' e; simpl; try by intros [= <- _].
  destruct (rs !! k) as [bins|].
  - destruct (Decode bins o) as [o' [err|]]; [by intros [= <- _]|].
    destruct (batchPopulate rs ks os) as [os' e'] eqn:E. intros [= <- _]. simpl.
    f_equal. by eapply IH.
  - destruct (batchPopulate rs ks os) as [os' e'] eqn:E. intros [= <- _]. simpl.
    f_equal. by eapply IH.
Qed.

(** A batch that decodes without error leaves, at each index, the record of
    the key at that index decoded into the object at that index. *)
Lemma batchPopulate_aligned rs ks : ∀ objects objects' i k o,
  batchPopulate rs ks objects = (objects', None) ->
  ks !! i = Some k -> objects !! i = Some o ->
  objects' !! i = Some match rs !! k with
                       | Some bins => (Decode bins o).1
                       | None => o
                       end.
Proof.
  induction ks as [|k0 ks IH]; intros [|o0 os] objects' i k o; simpl; try done.
  destruct (rs !! k0) as [bins|] eqn:Hrec.
  - destruct (Decode bins o0) as [o' [err|]] eqn:Hdec; [done|].
    destruct (batchPopulate rs ks os) as [os' e'] eqn:E. intros [= <- ->].
    destruct i as [|i]; simpl.
    + intros [= <-] [= <-]. by rewrite Hrec, Hdec.
    + by apply IH.
  - destruct (batchPopulate rs ks os) as [os' e'] eqn:E. intros [= <- ->].
    destruct i as [|i]; simpl.
    + intros [= <-] [= <-]. by rewrite Hrec.
    + by apply IH.
Qed.

(** The batch read as [GetMany] sees it. *)
Lemma BatchGetObjects_spec db keys objects :
  length keys = length objects -> length keys ≠ 0%nat ->
  viaClient (Client_BatchGetObjects keys objects) db =
    match derefAll keys with
    | None => Panicked (PanicRuntime "invalid memory address or nil pointer dereference")
    | Some ks =>
        Returned
          (match nextOutage db with
           | Some code => (objects, None, Some (AerospikeError code))
           | None =>
               match batchPopulate (records (cluster (Client db))) ks objects with
               | (objects', None) =>
                   (objects',
                    Some (map (fun k => bool_decide (is_Some (stored db k))) ks), None)
               | (objects', Some e) => (objects', None, Some e)
               end
           end, advance (ReqBatchGet ks) (records (cluster (Client db))) db)
    end.
Proof.
  intros Hlen Hne. unfold viaClient, Client_BatchGetObjects.
  rewrite bool_decide_false by (intros [?|?]; done).
  destruct (derefAll keys) as [ks|]; [|reflexivity].
  open_db db. unfold_monad. simpl.
  destruct os as [|[code|] os]; simpl; try reflexivity;
    destruct (batchPopulate rs ks objects) as [objects' [e|]]; reflexivity.
Qed.

(** C5: GetMany on a registered table.  For the empty id list it returns
    an empty, non-nil slice and leaves the database untouched: nothing is
    sent.  When it returns without error, the result is a slice of as many
    pointers as there are ids, none of them nil, and the i-th points to the
    record of the i-th id decoded into a fresh value of the registered type
    (the zero value if the id has no record).  When it returns an error, the
    result is nil: there is no partial result. *)
Theorem GetMany_length_and_order (db : Database) (table : string) (t : rtype)
    (idList : list string) :
  types db !! table = Some t ->
  GetMany table [] db = Returned ((Some [], None), db) ∧
  (∀ r db', GetMany table idList db = Returned ((r, None), db') ->
     ∃ ptrs, r = Some ptrs ∧ length ptrs = length idList ∧
       ∀ i id, idList !! i = Some id ->
         ptrs !! i = Some (Some (decoded (stored db (namespace db, table, id)) t))) ∧
  (∀ r e db', GetMany table idList db = Returned ((r, Some e), db') -> r = None).
Proof.
  intros Ht. split; [unfold GetMany; by rewrite Ht|].
  unfold GetMany. rewrite Ht. case_decide as Hnum.
  - apply length_zero_iff_nil in Hnum as ->. split; [|congruence].
    intros r db' [= <- _]. exists []. by repeat split.
  - rewrite getManyLoop_all.
    pose proof (targets_seq (replicate (length idList) (reflect_New t)) []) as Htg.
    rewrite length_replicate in Htg. simpl in Htg. rewrite Htg.
    unfold bind, ret. rewrite BatchGetObjects_spec
      by (rewrite ?length_map, ?length_replicate; done).
    destruct (derefAll _) as [ks|] eqn:Hks; [|done].
    apply derefAll_keys in Hks as ->.
    destruct (nextOutage db) as [code|]; [split; congruence|].
    destruct (batchPopulate _ _ _) as [written [e|]] eqn:Hb; [split; congruence|].
    split; [|congruence]. intros r db' [= <- _].
    pose proof (batchPopulate_length _ _ _ _ _ Hb) as Hlen.
    rewrite length_replicate in Hlen.
    pose proof (writeBack_seq written [] (replicate (length idList) (reflect_New t))) as Hwb.
    simpl in Hwb. rewrite Hlen in Hwb. rewrite Hwb by (by rewrite length_replicate).
    pose proof (pointees_seq written []) as Hpt. simpl in Hpt. rewrite Hlen in Hpt.
    rewrite Hpt. eexists. split; [reflexivity|]. rewrite length_map. split; [exact Hlen|].
    intros i id Hid. rewrite list_lookup_fmap.
    rewrite (batchPopulate_aligned _ _ _ _ i (namespace db, table, id) (reflect_New t) Hb).
    + reflexivity.
    + by rewrite list_lookup_fmap, Hid.
    + apply lookup_replicate_2. by apply lookup_lt_Some in Hid.
Qed.

Lemma GetMany_length_and_order_witness :
  types Fixtures.withAnn !! "User" = Some (TStruct Fixtures.User) ∧
  GetMany "User" [] Fixtures.withAnn = Returned ((Some [], None), Fixtures.withAnn) ∧
  GetMany "User" ["123"; "9"] Fixtures.withAnn
    = Returned ((Some [Some Fixtures.ann; Some (reflect_New (TStruct Fixtures.User))], None),
                advance (ReqBatchGet [("test", "User", "123"); ("test", "User", "9")])
                        (records (cluster (Client Fixtures.withAnn))) Fixtures.withAnn) ∧
  ∃ ptrs, Some [Some Fixtures.ann; Some (reflect_New (TStruct Fixtures.User))] = Some ptrs ∧
          length ptrs = 2%nat ∧
          ∀ i id, ["123"; "9"] !! i = Some id ->
                  ptrs !! i = Some (Some (decoded (stored Fixtures.withAnn ("test", "User", id))
                                                  (TStruct Fixtures.User))).
Proof.
  destruct (GetMany_length_and_order Fixtures.withAnn "User" (TStruct Fixtures.User)
              ["123"; "9"] eq_refl) as (Hnil & Hok & _).
  split; [reflexivity|]. split; [exact Hnil|]. split; [reflexivity|].
  exact (Hok _ _ eq_refl).
Defined.

(** ** The scenario of the README *)

(** Register [User], store Ann under "123", read her back, test for the
    record, delete it, and read again. *)
Example README_scenario :
  Set' "User" "123" Fixtures.ann Fixtures.db0 = Returned (None, Fixtures.withAnn) ∧
  (∃ db', Get "User" "123" Fixtures.withAnn = Returned ((Some Fixtures.ann, None), db')) ∧
  (∃ db', Exists "User" "123" Fixtures.withAnn = Returned ((true, None), db')) ∧
  ∃ db', Delete "User" "123" Fixtures.withAnn = Returned ((true, None), db') ∧
    ∃ db'', Get "User" "123" db'
            = Returned ((Some (reflect_New (TStruct Fixtures.User)),
                         Some (AerospikeError KEY_NOT_FOUND_ERROR)), db'').
Proof.
  split; [reflexivity|]. split; [eexists; reflexivity|]. split; [eexists; reflexivity|].
  eexists. split; [reflexivity|]. eexists. reflexivity.
Qed.

(** Why [NewDatabase] sets [REPLACE]: with the library's default action a
    second Set merges, and the field only the first object has stays in the
    record. *)
Example default_policy_merges :
  ∃ db1 db2 bins db3,
    Set' "User" "123" Fixtures.bob Fixtures.merging = Returned (None, db1) ∧
    Set' "User" "123" Fixtures.ann db1 = Returned (None, db2) ∧
    GetMap "User" "123" db2 = Returned ((Some bins, None), db3) ∧
    Encode Fixtures.ann !! "age" = None ∧
    bins !! "age" = Some (VNumber 41).
Proof.
  do 4 eexists. split; [reflexivity|]. split; [reflexivity|]. split; [reflexivity|].
  split; reflexivity.
Qed.

(** ** Construction *)

Lemma registerTables_app l1 : ∀ acc l2,
  registerTables acc (l1 ++ l2) =
    match registerTables acc l1 with
    | Returned reg => registerTables reg l2
    | Panicked v => Panicked v
    end.
Proof.
  induction l1 as [|ex l1 IH]; intros acc l2; simpl; [done|].
  destruct (Elem (reflect_TypeOf ex)); [apply IH | done].
Qed.

(** A name none of the examples registers keeps the entry it had. *)
Lemma registerTables_other tables : ∀ acc reg name,
  registerTables acc tables = Returned reg ->
  (∀ ex t, ex ∈ tables -> Elem (reflect_TypeOf ex) = Returned t -> Name t ≠ name) ->
  reg !! name = acc !! name.
Proof.
  induction tables as [|ex rest IH]; intros acc reg name; simpl; [by intros [= <-]|].
  destruct (Elem (reflect_TypeOf ex)) as [t|] eqn:E; [|done]. intros Hreg Hother.
  rewrite (IH _ _ _ Hreg).
  - apply lookup_insert_ne. apply (Hother ex t); [apply list_elem_of_here | exact E].
  - intros ex' t' Hin. apply Hother. by apply list_elem_of_further.
Qed.

(** Every entry of the registry is the element type of one of the examples,
    under that type's name, or was there before. *)
Lemma registerTables_origin tables : ∀ acc reg name t,
  registerTables acc tables = Returned reg -> reg !! name = Some t ->
  acc !! name = Some t ∨
  ∃ ex, ex ∈ tables ∧ Elem (reflect_TypeOf ex) = Returned t ∧ Name t = name.
Proof.
  induction tables as [|ex rest IH]; intros acc reg name t; simpl.
  - intros [= <-]. auto.
  - destruct (Elem (reflect_TypeOf ex)) as [t0|] eqn:E; [|done]. intros Hreg Hlook.
    destruct (IH _ _ _ _ Hreg Hlook) as [Hacc | (ex' & Hin & Hel & Hname)].
    + destruct (decide (Name t0 = name)) as [Heq|Hne].
      * rewrite <- Heq, lookup_insert_eq in Hacc. injection Hacc as ->.
        right. exists ex. split; [apply list_elem_of_here | done].
      * rewrite lookup_insert_ne in Hacc by done. auto.
    + right. exists ex'. split; [by apply list_elem_of_further | done].
Qed.

Lemma registerTables_total tables : ∀ acc,
  Forall hasElem tables -> ∃ reg, registerTables acc tables = Returned reg.
Proof.
  induction tables as [|ex rest IH]; intros acc Hall; simpl; [eauto|].
  inversion Hall as [|? ? [t Ht] Hrest]; subst. rewrite Ht. apply IH, Hrest.
Qed.

Lemma registerTables_hasElem tables : ∀ acc reg,
  registerTables acc tables = Returned reg -> Forall hasElem tables.
Proof.
  induction tables as [|ex rest IH]; intros acc reg; simpl; [constructor|].
  destruct (Elem (reflect_TypeOf ex)) as [t|] eqn:E; [|done]. intros Hreg.
  constructor; [by exists t | by eapply IH].
Qed.

(** X1: the registry [NewDatabase] builds.  An example is registered under the
    name of its element type, and a later example of the same name overwrites
    it: the type a table name maps to is the element type of the last example
    that carries the name, and Type returns it.  Nothing else is in the
    registry: every entry is the element type of one of the examples, under
    that type's name. *)
Theorem NewDatabase_registry (dial : Dialer) (host : string) (port : Z) (ns : string)
    (before after_ : list example) (ex : example) (t : rtype) (db : Database) :
  NewDatabase dial host port ns (before ++ ex :: after_) = Returned db ->
  Elem (reflect_TypeOf ex) = Returned t ->
  (∀ ex' t', ex' ∈ after_ -> Elem (reflect_TypeOf ex') = Returned t' -> Name t' ≠ Name t) ->
  Type' (Name t) db = Returned (Some t, db) ∧
  ∀ name t', types db !! name = Some t' ->
    ∃ ex', ex' ∈ before ++ ex :: after_ ∧ Elem (reflect_TypeOf ex') = Returned t' ∧
           Name t' = name.
Proof.
  intros Hnew Hel Hlast. unfold NewDatabase in Hnew.
  destruct (registerTables ∅ (before ++ ex :: after_)) as [reg|] eqn:Hreg; [|done].
  destruct (dial _ _ _) as [[c|] [e|]]; try done. injection Hnew as <-.
  unfold Type', gets. simpl. split.
  - rewrite registerTables_app in Hreg.
    destruct (registerTables ∅ before) as [reg0|]; [|done]. simpl in Hreg. rewrite Hel in Hreg.
    rewrite (registerTables_other _ _ _ _ Hreg Hlast), lookup_insert_eq. reflexivity.
  - intros name t' Hlook.
    destruct (registerTables_origin _ _ _ _ _ Hreg Hlook) as [Hempty|H]; [|exact H].
    by rewrite lookup_empty in Hempty.
Qed.

Lemma NewDatabase_registry_witness :
  NewDatabase Fixtures.localDial "127.0.0.1" 3000 "test"
    ([Some (TPtr (TStruct Fixtures.User)); Some (TPtr (TStruct Fixtures.Post))]
       ++ Some (TPtr (TStruct Fixtures.User2)) :: [])
  = Returned Fixtures.dbThree ∧
  Type' "User" Fixtures.dbThree = Returned (Some (TStruct Fixtures.User2), Fixtures.dbThree).
Proof.
  split; [reflexivity|].
  apply (NewDatabase_registry Fixtures.localDial "127.0.0.1" 3000 "test"
           [Some (TPtr (TStruct Fixtures.User)); Some (TPtr (TStruct Fixtures.Post))] []
           (Some (TPtr (TStruct Fixtures.User2))) (TStruct Fixtures.User2) Fixtures.dbThree
           eq_refl eq_refl).
  intros ex' t' Hin. by apply elem_of_nil in Hin.
Defined.

(** What [NewDatabase] hands back.  It dials once, with a connection queue
    of 1024, and the database it returns holds the namespace it was given,
    the registry built from the examples, and the dialed client with the
    write policy set to REPLACE and the scan policy to high priority, all
    nodes at once, bins included; the cluster behind the client is as the
    dialer left it: nothing has been sent. *)
Theorem NewDatabase_returns (dial : Dialer) (host : string) (port : Z) (ns : string)
    (tables : list example) (db : Database) :
  NewDatabase dial host port ns tables = Returned db ->
  ∃ c, dial dialPolicy host port = (Some c, None) ∧
       registerTables ∅ tables = Returned (types db) ∧
       namespace db = ns ∧
       Client db = {| DefaultWritePolicy := {| RecordExistsAction := REPLACE |};
                      DefaultScanPolicy := fastScan;
                      cluster := cluster c |}.
Proof.
  unfold NewDatabase, dialPolicy. destruct (registerTables ∅ tables) as [reg|]; [|done].
  destruct (dial _ _ _) as [[c|] [e|]]; try done. intros [= <-]. by exists c.
Qed.

Lemma NewDatabase_returns_witness :
  NewDatabase Fixtures.localDial "127.0.0.1" 3000 "test" [Some (TPtr (TStruct Fixtures.User))]
    = Returned Fixtures.db0 ∧
  ∃ c : as_Client, Fixtures.localDial dialPolicy "127.0.0.1" 3000%Z = (Some c, None) ∧
       registerTables ∅ [Some (TPtr (TStruct Fixtures.User))] = Returned (types Fixtures.db0) ∧
       namespace Fixtures.db0 = "test" ∧
       Client Fixtures.db0 = {| DefaultWritePolicy := {| RecordExistsAction := REPLACE |};
                                DefaultScanPolicy := fastScan;
                                cluster := cluster c |}.
Proof.
  split; [reflexivity|].
  apply (NewDatabase_returns Fixtures.localDial "127.0.0.1" 3000 "test"
           [Some (TPtr (TStruct Fixtures.User))] Fixtures.db0 eq_refl).
Defined.

(** X2: when [NewDatabase] returns and when it panics.  It returns exactly when
    every example has an element type (it is a pointer, a slice, a channel,
    an array or a map; not nil, and not a struct or a basic value) and the
    dialer hands back a client without an error.  With examples that all have an element type, an error of the
    dialer is the value it panics with. *)
Theorem NewDatabase_returns_iff (dial : Dialer) (host : string) (port : Z) (ns : string)
    (tables : list example) :
  ((∃ db, NewDatabase dial host port ns tables = Returned db) ↔
   Forall hasElem tables ∧ ∃ c, dial dialPolicy host port = (Some c, None)) ∧
  (∀ c e, Forall hasElem tables -> dial dialPolicy host port = (c, Some e) ->
     NewDatabase dial host port ns tables = Panicked (PanicError e)) ∧
  (¬ Forall hasElem tables -> ∃ v, NewDatabase dial host port ns tables = Panicked v).
Proof.
  unfold NewDatabase, dialPolicy. split; [split|split].
  - intros [db H]. destruct (registerTables ∅ tables) as [reg|] eqn:E; [|done]. split.
    + by eapply registerTables_hasElem.
    + destruct (dial _ _ _) as [[c|] [e|]]; try done. by exists c.
  - intros [Hall [c Hc]]. destruct (registerTables_total tables ∅ Hall) as [reg ->].
    rewrite Hc. eauto.
  - intros c e Hall Hc. destruct (registerTables_total tables ∅ Hall) as [reg ->].
    by rewrite Hc.
  - intros Hbad. destruct (registerTables ∅ tables) as [reg|] eqn:E; [|eauto].
    destruct Hbad. by eapply registerTables_hasElem.
Qed.

Lemma NewDatabase_returns_iff_witness :
  Forall hasElem [Some (TPtr (TStruct Fixtures.User))] ∧
  Fixtures.localDial dialPolicy "10.0.0.9" 3000%Z = (None, Some (AerospikeError (-1))) ∧
  NewDatabase Fixtures.localDial "10.0.0.9" 3000 "test" [Some (TPtr (TStruct Fixtures.User))]
    = Panicked (PanicError (AerospikeError (-1))).
Proof.
  assert (Forall hasElem [Some (TPtr (TStruct Fixtures.User))]) as Hall.
  { repeat constructor. exists (TStruct Fixtures.User). reflexivity. }
  split; [exact Hall|]. split; [reflexivity|].
  destruct (NewDatabase_returns_iff Fixtures.localDial "10.0.0.9" 3000 "test"
              [Some (TPtr (TStruct Fixtures.User))]) as (_ & Hpanic & _).
  exact (Hpanic None (AerospikeError (-1)) Hall eq_refl).
Defined.

(** ** One call, one request *)

(** X4: each of the six single-key methods, given an id a key can be built
    from, makes exactly one request, addressed to the key made of the
    database's namespace, the table and the id: a put of the object's encoding
    for Set, a delete for Delete, an exists for Exists, a get for Get (on a
    registered table), GetObject and GetMap.  Get on a table without a type
    sends nothing. *)
Theorem one_request_per_call (db : Database) (table id : string) (pk : option as_Key) :
  as_NewKey (namespace db) table id = (pk, None) ->
  let k := (namespace db, table, id) in
  let w := wire (cluster (Client db)) in
  (∀ obj, sent (Set' table id obj) db = Some (w ++ [ReqPut k (Encode obj)])) ∧
  sent (Delete table id) db = Some (w ++ [ReqDelete k]) ∧
  sent (Exists table id) db = Some (w ++ [ReqExists k]) ∧
  (∀ obj, sent (GetObject table id obj) db = Some (w ++ [ReqGet k])) ∧
  sent (GetMap table id) db = Some (w ++ [ReqGet k]) ∧
  sent (Get table id) db = Some match types db !! table with
                                | Some _ => w ++ [ReqGet k]
                                | None => w
                                end.
Proof.
  intros Hk k w. pose proof (as_NewKey_ok _ _ _ _ Hk) as ->. unfold sent.
  split; [|split; [|split; [|split; [|split]]]].
  - intros obj. rewrite (Set_spec _ _ _ _ _ Hk).
    destruct (nextOutage db); [done|]. by destruct (applyPut _ _ _).
  - rewrite (Delete_spec _ _ _ _ Hk). by destruct (nextOutage db).
  - by rewrite (Exists_spec _ _ _ _ Hk).
  - intros obj. by rewrite (GetObject_spec _ _ _ _ _ Hk).
  - by rewrite (GetMap_spec _ _ _ _ Hk).
  - destruct (types db !! table) as [t|] eqn:Ht.
    + by rewrite (Get_spec _ _ _ _ _ Hk Ht).
    + unfold Get. by rewrite Hk, Ht.
Qed.

Lemma one_request_per_call_witness :
  as_NewKey (namespace Fixtures.withAnn) "User" "123" = (Some ("test", "User", "123"), None) ∧
  sent (Delete "User" "123") Fixtures.withAnn
    = Some ([ReqPut ("test", "User", "123") (Encode Fixtures.ann)]
              ++ [ReqDelete ("test", "User", "123")]).
Proof.
  split; [reflexivity|].
  destruct (one_request_per_call Fixtures.withAnn "User" "123"
              (Some ("test", "User", "123")) eq_refl) as (_ & HDelete & _).
  exact HDelete.
Defined.

(** X5: on a registered table and with an id a key can be built from, Get is
    GetObject into a freshly allocated zero value of the registered type: the
    same request, the same error, and the object GetObject filled. *)
Theorem Get_is_GetObject_into_zero (db : Database) (table id : string) (t : rtype)
    (pk : option as_Key) :
  types db !! table = Some t ->
  as_NewKey (namespace db) table id = (pk, None) ->
  Get table id db =
    match GetObject table id (reflect_New t) db with
    | Returned ((obj, err), db') => Returned ((Some obj, err), db')
    | Panicked v => Panicked v
    end.
Proof.
  intros Ht Hk. pose proof (as_NewKey_ok _ _ _ _ Hk) as ->.
  rewrite (Get_spec _ _ _ _ _ Hk Ht), (GetObject_spec _ _ _ _ _ Hk).
  destruct (nextOutage db); [done|]. destruct (stored db _) as [bins|]; [|done].
  by destruct (Decode bins _).
Qed.

Lemma Get_is_GetObject_into_zero_witness :
  types Fixtures.withAnn !! "User" = Some (TStruct Fixtures.User) ∧
  as_NewKey (namespace Fixtures.withAnn) "User" "123" = (Some ("test", "User", "123"), None) ∧
  Get "User" "123" Fixtures.withAnn =
    match GetObject "User" "123" (reflect_New (TStruct Fixtures.User)) Fixtures.withAnn with
    | Returned ((obj, err), db') => Returned ((Some obj, err), db')
    | Panicked v => Panicked v
    end.
Proof.
  split; [reflexivity|]. split; [reflexivity|].
  apply (Get_is_GetObject_into_zero Fixtures.withAnn "User" "123" (TStruct Fixtures.User)
           (Some ("test", "User", "123")) eq_refl eq_refl).
Defined.

(** ** What a write touches *)

(** X6: Set and Delete touch the record of their own key only: whatever they
    return, the record stored under any other key (another id, the same id in
    another table or another namespace) is what it was. *)
Theorem writes_touch_one_key (db : Database) (table id : string) (k' : as_Key) :
  k' ≠ (namespace db, table, id) ->
  (∀ obj r db', Set' table id obj db = Returned (r, db') -> stored db' k' = stored db k') ∧
  (∀ r db', Delete table id db = Returned (r, db') -> stored db' k' = stored db k').
Proof.
  intros Hne.
  destruct (as_NewKey_cases (namespace db) table id) as [[_ Hk] | [_ Hk]].
  - destruct (key_error_returned _ _ _ _ _ Hk) as (_ & HSet & HDelete & _). split.
    + intros obj r db'. rewrite HSet. by intros [= _ <-].
    + intros r db'. rewrite HDelete. by intros [= _ <-].
  - split.
    + intros obj r db'. rewrite (Set_spec _ _ _ _ _ Hk).
      destruct (nextOutage db); [by intros [= _ <-]|].
      destruct (applyPut _ _ _); intros [= _ <-]; [|done].
      rewrite stored_advance. by apply lookup_insert_ne.
    + intros r db'. rewrite (Delete_spec _ _ _ _ Hk).
      destruct (nextOutage db); intros [= _ <-]; [done|].
      rewrite stored_advance. by apply lookup_delete_ne.
Qed.

Lemma writes_touch_one_key_witness :
  ("test", "User", "123") ≠ (namespace Fixtures.withAnn, "Post", "123") ∧
  ∀ obj r db', Set' "Post" "123" obj Fixtures.withAnn = Returned (r, db') ->
    stored db' ("test", "User", "123") = stored Fixtures.withAnn ("test", "User", "123").
Proof.
  assert (("test", "User", "123") ≠ (namespace Fixtures.withAnn, "Post", "123")) as Hne
    by discriminate.
  split; [exact Hne|].
  apply (writes_touch_one_key Fixtures.withAnn "Post" "123" ("test", "User", "123") Hne).
Defined.

(** ** Exists *)

(** X7: Exists follows the writes: after a Set that returned without error it
    returns (true, nil), after a Delete that returned without error it returns
    (false, nil), provided its own request does not fail; and it leaves the
    stored records as they are. *)
Theorem Exists_follows_writes (db db1 : Database) (table id : string) :
  nextOutage db1 = None ->
  (∀ obj, Set' table id obj db = Returned (None, db1) ->
     ∃ db2, Exists table id db1 = Returned ((true, None), db2) ∧
            records (cluster (Client db2)) = records (cluster (Client db1))) ∧
  (∀ existed, Delete table id db = Returned ((existed, None), db1) ->
     ∃ db2, Exists table id db1 = Returned ((false, None), db2) ∧
            records (cluster (Client db2)) = records (cluster (Client db1))).
Proof.
  intros Hup. split.
  - intros obj HSet.
    pose proof (Set_ok_key _ _ _ _ _ HSet) as Hk.
    pose proof (Set_sameSetup _ _ _ _ _ _ HSet) as (Hns1 & _).
    destruct (Set_ok_inv _ _ _ _ _ HSet) as (new & _ & Hdb1).
    assert (stored db1 (namespace db, table, id) = Some new) as Hst
      by (rewrite Hdb1, stored_advance; apply lookup_insert_eq).
    rewrite <- Hns1 in Hk. rewrite (Exists_spec _ _ _ _ Hk), Hup, Hns1, Hst. eauto.
  - intros existed HDel.
    destruct (as_NewKey_cases (namespace db) table id) as [[_ Hk] | [_ Hk]].
    { destruct (key_error_returned _ _ _ _ _ Hk) as (_ & _ & HDelete & _).
      rewrite HDelete in HDel. done. }
    pose proof (Delete_sameSetup _ _ _ _ _ HDel) as (Hns1 & _).
    rewrite (Delete_spec _ _ _ _ Hk) in HDel.
    destruct (nextOutage db); [done|]. injection HDel as _ Hdb1.
    assert (stored db1 (namespace db, table, id) = None) as Hst
      by (rewrite <- Hdb1, stored_advance; apply lookup_delete_eq).
    rewrite <- Hns1 in Hk. rewrite (Exists_spec _ _ _ _ Hk), Hup, Hns1, Hst. eauto.
Qed.

Lemma Exists_follows_writes_witness :
  nextOutage Fixtures.withAnn = None ∧
  Set' "User" "123" Fixtures.ann Fixtures.db0 = Returned (None, Fixtures.withAnn) ∧
  ∃ db2, Exists "User" "123" Fixtures.withAnn = Returned ((true, None), db2) ∧
         records (cluster (Client db2)) = records (cluster (Client Fixtures.withAnn)).
Proof.
  split; [reflexivity|]. split; [reflexivity|].
  destruct (Exists_follows_writes Fixtures.db0 Fixtures.withAnn "User" "123" eq_refl)
    as (HSet & _).
  exact (HSet Fixtures.ann eq_refl).
Defined.

(** ** What the reading methods leave alone *)

Lemma Client_Get_keepsRecords key : keepsRecords (Client_Get key).
Proof. unfold Client_Get. crush_records. Qed.

Lemma Client_GetObject_keepsRecords key obj : keepsRecords (Client_GetObject key obj).
Proof. unfold Client_GetObject. crush_records. Qed.

Lemma Client_Exists_keepsRecords key : keepsRecords (Client_Exists key).
Proof. unfold Client_Exists. crush_records. Qed.

Lemma Client_BatchGetObjects_keepsRecords keys objects :
  keepsRecords (Client_BatchGetObjects keys objects).
Proof. unfold Client_BatchGetObjects. crush_records. Qed.

Lemma Client_ScanAllObjects_keepsRecords objChan ns setName :
  keepsRecords (Client_ScanAllObjects objChan ns setName).
Proof. unfold Client_ScanAllObjects. crush_records. Qed.

Lemma viaClient_keepsRecords {A : Type} (m : M as_Client A) db a db' :
  keepsRecords m -> viaClient m db = Returned (a, db') ->
  records (cluster (Client db')) = records (cluster (Client db)).
Proof.
  intros Hm. unfold viaClient. destruct (m (Client db)) as [[a' c]|] eqn:E; [|done].
  intros [= <- <-]. simpl. apply (Hm _ _ _ E).
Qed.

(** X8: no reading method changes what is stored: after Get, Exists, Scan, All,
    GetObject, GetMap, GetMany, Namespace, Type or Types has returned, with
    whatever arguments and whatever result, every record of the cluster is
    what it was. *)
Theorem reads_keep_records (c : call) (db db' : Database) :
  readOnly c = true ->
  exec c db = Returned db' ->
  records (cluster (Client db')) = records (cluster (Client db)).
Proof.
  intros Hro. destruct c; try discriminate Hro; simpl; unfold after;
    match goal with |- context [match ?m db with _ => _ end] =>
      destruct (m db) as [[r d]|] eqn:E; [|done] end;
    intros [= <-].
  - unfold Get in E. destruct (as_NewKey _ _ _) as [pk [e|]]; [by injection E as _ <-|].
    destruct (types db !! table) as [t|]; [|by injection E as _ <-].
    unfold bind, ret in E.
    destruct (viaClient _ db) as [[[o err] d']|] eqn:E'; [|done]. injection E as _ <-.
    eapply viaClient_keepsRecords; [|exact E']. apply Client_GetObject_keepsRecords.
  - unfold Exists in E. destruct (as_NewKey _ _ _) as [pk [e|]]; [by injection E as _ <-|].
    eapply viaClient_keepsRecords; [|exact E]. apply Client_Exists_keepsRecords.
  - eapply viaClient_keepsRecords; [|exact E]. apply Client_ScanAllObjects_keepsRecords.
  - unfold All in E. destruct (reflect_MakeChan _) as [channel_|]; [|done].
    unfold bind, ret in E. destruct (Scan _ _ db) as [[[c' err] d']|] eqn:E'; [|done].
    injection E as _ <-.
    eapply viaClient_keepsRecords; [|exact E']. apply Client_ScanAllObjects_keepsRecords.
  - unfold GetObject in E. destruct (as_NewKey _ _ _) as [pk [e|]]; [by injection E as _ <-|].
    eapply viaClient_keepsRecords; [|exact E]. apply Client_GetObject_keepsRecords.
  - unfold GetMap in E. destruct (as_NewKey _ _ _) as [pk [e|]]; [by injection E as _ <-|].
    unfold bind, ret in E.
    destruct (viaClient _ db) as [[[rec err] d']|] eqn:E'; [|done].
    assert (d' = d) as <- by (repeat case_match; congruence).
    eapply viaClient_keepsRecords; [|exact E']. apply Client_Get_keepsRecords.
  - unfold GetMany in E. destruct (types db !! table) as [t|]; [|by injection E as _ <-].
    case_decide; [by injection E as _ <-|].
    destruct (getManyLoop _ _ _ _ _ _ _ _) as [[keys ptrs] ifs].
    unfold bind, ret in E.
    destruct (viaClient _ db) as [[[[written found] err] d']|] eqn:E'; [|done].
    assert (d' = d) as <- by (repeat case_match; congruence).
    eapply viaClient_keepsRecords; [|exact E']. apply Client_BatchGetObjects_keepsRecords.
  - unfold Namespace, gets in E. by injection E as _ <-.
  - unfold Type', gets in E. by injection E as _ <-.
  - unfold Types, gets in E. by injection E as _ <-.
Qed.

Lemma reads_keep_records_witness :
  readOnly (CallGetMany "User" ["123"; "9"]) = true ∧
  exec (CallGetMany "User" ["123"; "9"]) Fixtures.withAnn
    = Returned (advance (ReqBatchGet [("test", "User", "123"); ("test", "User", "9")])
                        (records (cluster (Client Fixtures.withAnn))) Fixtures.withAnn) ∧
  records (cluster (Client (advance (ReqBatchGet [("test", "User", "123");
                                                  ("test", "User", "9")])
                                    (records (cluster (Client Fixtures.withAnn)))
                                    Fixtures.withAnn)))
  = records (cluster (Client Fixtures.withAnn)).
Proof.
  split; [reflexivity|]. split; [reflexivity|].
  apply (reads_keep_records (CallGetMany "User" ["123"; "9"]) Fixtures.withAnn _
           eq_refl eq_refl).
Defined.

(** ** The policies *)

(** X9: the policies are set once.  Every database built by NewDatabase and
    used through the public methods, in any number and order, still writes
    with REPLACE and scans with high priority, all nodes at once, bins
    included. *)
Theorem policies_set_once (db : Database) :
  reachable db ->
  DefaultWritePolicy (Client db) = {| RecordExistsAction := REPLACE |} ∧
  DefaultScanPolicy (Client db) = fastScan.
Proof.
  induction 1 as [dial host port ns tables db H | c db db' _ IH H].
  - destruct (NewDatabase_config _ _ _ _ _ _ H) as (_ & Hw & Hs). split; [|exact Hs].
    destruct (DefaultWritePolicy (Client db)). simpl in Hw. by rewrite Hw.
  - apply exec_sameSetup in H as (_ & _ & -> & ->). exact IH.
Qed.

Lemma policies_set_once_witness :
  reachable Fixtures.afterAnn ∧
  DefaultWritePolicy (Client Fixtures.afterAnn) = {| RecordExistsAction := REPLACE |} ∧
  DefaultScanPolicy (Client Fixtures.afterAnn) = fastScan.
Proof.
  assert (reachable Fixtures.afterAnn) as Hreach.
  { apply (reachable_call (CallSet "User" "123" Fixtures.ann) Fixtures.afterBob); [|reflexivity].
    apply (reachable_call (CallSet "User" "123" Fixtures.bob) Fixtures.db0); [|reflexivity].
    apply (reachable_new Fixtures.localDial "127.0.0.1" 3000 "test"
             [Some (TPtr (TStruct Fixtures.User))]). reflexivity. }
  split; [exact Hreach|]. apply (policies_set_once Fixtures.afterAnn Hreach).
Defined.

(** ** The batch read, as one equation *)

(** [GetMany] on a registered table and a non-empty id list. *)
Lemma GetMany_spec db table t idList :
  types db !! table = Some t -> idList ≠ [] ->
  GetMany table idList db =
    match derefAll (map (fun id => (as_NewKey (namespace db) table id).1) idList) with
    | None => Panicked (PanicRuntime "invalid memory address or nil pointer dereference")
    | Some ks =>
        Returned
          (match nextOutage db with
           | Some code => (None, Some (AerospikeError code))
           | None =>
               match batchPopulate (records (cluster (Client db))) ks
                                   (replicate (length idList) (reflect_New t)) with
               | (written, None) => (Some (map Some written), None)
               | (_, Some e) => (None, Some e)
               end
           end, advance (ReqBatchGet ks) (records (cluster (Client db))) db)
    end.
Proof.
  intros Ht Hne. unfold GetMany. rewrite Ht.
  rewrite decide_False by (by intros ?%length_zero_iff_nil).
  rewrite getManyLoop_all.
  pose proof (targets_seq (replicate (length idList) (reflect_New t)) []) as Htg.
  rewrite length_replicate in Htg. simpl in Htg. rewrite Htg.
  unfold bind, ret. rewrite BatchGetObjects_spec
    by (rewrite ?length_map, ?length_replicate; try done;
        by intros ?%length_zero_iff_nil).
  destruct (derefAll _) as [ks|]; [|done].
  destruct (nextOutage db) as [code|]; [done|].
  destruct (batchPopulate _ _ _) as [written [e|]] eqn:Hb; [done|].
  pose proof (batchPopulate_length _ _ _ _ _ Hb) as Hlen.
  rewrite length_replicate in Hlen.
  pose proof (writeBack_seq written [] (replicate (length idList) (reflect_New t))) as Hwb.
  simpl in Hwb. rewrite Hlen in Hwb. rewrite Hwb by (by rewrite length_replicate).
  pose proof (pointees_seq written []) as Hpt. simpl in Hpt. rewrite Hlen in Hpt.
  by rewrite Hpt.
Qed.

(** X10: GetMany makes a single request.  On a registered table and a non-empty
    id list, whenever it returns (with a result or with an error) the wire has
    grown by exactly one batch request, whose keys are the keys of the ids, in
    the order of the list, in the database's namespace and the table. *)
Theorem GetMany_one_batch_request (db db' : Database) (table : string) (t : rtype)
    (idList : list string) (r : option (list (option Object)) * option error) :
  types db !! table = Some t ->
  idList ≠ [] ->
  GetMany table idList db = Returned (r, db') ->
  wire (cluster (Client db'))
  = wire (cluster (Client db))
      ++ [ReqBatchGet (map (fun id => (namespace db, table, id)) idList)].
Proof.
  intros Ht Hne. rewrite (GetMany_spec _ _ _ _ Ht Hne).
  destruct (derefAll _) as [ks|] eqn:Hks; [|done].
  apply derefAll_keys in Hks as ->. by intros [= _ <-].
Qed.

Lemma GetMany_one_batch_request_witness :
  types Fixtures.withAnn !! "User" = Some (TStruct Fixtures.User) ∧
  ["123"; "9"] ≠ [] ∧
  GetMany "User" ["123"; "9"] Fixtures.withAnn
    = Returned ((Some [Some Fixtures.ann; Some (reflect_New (TStruct Fixtures.User))], None),
                advance (ReqBatchGet [("test", "User", "123"); ("test", "User", "9")])
                        (records (cluster (Client Fixtures.withAnn))) Fixtures.withAnn) ∧
  wire (cluster (Client
          (advance (ReqBatchGet [("test", "User", "123"); ("test", "User", "9")])
                   (records (cluster (Client Fixtures.withAnn))) Fixtures.withAnn)))
  = wire (cluster (Client Fixtures.withAnn))
      ++ [ReqBatchGet (map (fun id => (namespace Fixtures.withAnn, "User", id)) ["123"; "9"])].
Proof.
  assert (["123"; "9"] ≠ @nil string) as Hne by discriminate.
  split; [reflexivity|]. split; [exact Hne|]. split; [reflexivity|].
  apply (GetMany_one_batch_request Fixtures.withAnn _ "User" (TStruct Fixtures.User)
           ["123"; "9"] _ eq_refl Hne eq_refl).
Defined.

(** X11: GetMany agrees with Get.  When GetMany has returned without error,
    the pointer at each index addresses the very object a Get of the id at
    that index returns, for every id on which that Get returns without
    error. *)
Theorem GetMany_agrees_with_Get (db db' db1 : Database) (table : string)
    (idList : list string) (ptrs : list (option Object)) (i : nat) (id : string)
    (o : option Object) :
  GetMany table idList db = Returned ((Some ptrs, None), db') ->
  idList !! i = Some id ->
  Get table id db = Returned ((o, None), db1) ->
  ptrs !! i = Some o.
Proof.
  intros HMany Hid HGet.
  assert (idList ≠ []) as Hne by (intros ->; done).
  destruct (types db !! table) as [t|] eqn:Ht;
    [|unfold GetMany in HMany; by rewrite Ht in HMany].
  destruct (as_NewKey_cases (namespace db) table id) as [[_ Hk] | [_ Hk]].
  { destruct (key_error_returned _ _ _ _ _ Hk) as (HG & _). by rewrite HG in HGet. }
  rewrite (Get_spec _ _ _ _ _ Hk Ht) in HGet.
  rewrite (GetMany_spec _ _ _ _ Ht Hne) in HMany.
  destruct (derefAll _) as [ks|] eqn:Hks; [|done]. apply derefAll_keys in Hks as ->.
  destruct (nextOutage db); [done|].
  destruct (batchPopulate _ _ _) as [written [e|]] eqn:Hb; [done|].
  injection HMany as <- _. rewrite list_lookup_fmap.
  rewrite (batchPopulate_aligned _ _ _ _ i (namespace db, table, id) (reflect_New t) Hb).
  - destruct (stored db _) as [bins|] eqn:Hst; [|done]. unfold stored in Hst. rewrite Hst.
    by injection HGet as <- _ _.
  - by rewrite list_lookup_fmap, Hid.
  - apply lookup_replicate_2. by apply lookup_lt_Some in Hid.
Qed.

Lemma GetMany_agrees_with_Get_witness :
  GetMany "User" ["9"; "123"] Fixtures.withAnn
    = Returned ((Some [Some (reflect_New (TStruct Fixtures.User)); Some Fixtures.ann], None),
                advance (ReqBatchGet [("test", "User", "9"); ("test", "User", "123")])
                        (records (cluster (Client Fixtures.withAnn))) Fixtures.withAnn) ∧
  ["9"; "123"] !! 1%nat = Some "123" ∧
  Get "User" "123" Fixtures.withAnn
    = Returned ((Some Fixtures.ann, None),
                advance (ReqGet ("test", "User", "123"))
                        (records (cluster (Client Fixtures.withAnn))) Fixtures.withAnn) ∧
  [Some (reflect_New (TStruct Fixtures.User)); Some Fixtures.ann] !! 1%nat
    = Some (Some Fixtures.ann).
Proof.
  split; [reflexivity|]. split; [reflexivity|]. split; [reflexivity|].
  apply (GetMany_agrees_with_Get Fixtures.withAnn _ _ "User" ["9"; "123"] _ 1 "123"
           (Some Fixtures.ann) eq_refl eq_refl eq_refl).
Defined.

(** ** GetObject into the caller's object *)

(** Decoding a record that holds the encoding of [o] into any object of
    [o]'s type sets the tagged fields to those of [o] and leaves the untagged
    ones as the target had them. *)
Lemma Decode_into o rec target :
  instanceOf o -> NoDup (storageNames (otype o)) ->
  (∀ n v, Encode o !! n = Some v -> rec !! n = Some v) ->
  otype target = otype o ->
  length (ovals target) = length (fieldsOf (otype o)) ->
  ∃ o', Decode rec target = (o', None) ∧ agreeOnTagged o o' ∧
        ∀ i f, fieldsOf (otype o) !! i = Some f -> fieldTag f = None ->
               ovals o' !! i = ovals target !! i.
Proof.
  intros Hinst Hnd Hsub Hty Hlen. unfold Decode, instanceOf, storageNames, Encode in *.
  rewrite Hty.
  assert (∀ i f n, fieldsOf (otype o) !! i = Some f -> fieldTag f = Some n ->
            ∃ v, ovals o !! i = Some v ∧ kindOf v = fieldKind f ∧ rec !! n = Some v) as Hfield.
  { intros i f n Hf Hn.
    destruct (Forall2_lookup_l _ _ _ _ _ Hinst Hf) as (v & Hv & Hkind).
    exists v. repeat split; try done. apply Hsub. by eapply marshalInto_lookup. }
  destruct (populate_decodes rec (fieldsOf (otype o)) (ovals target) Hlen) as (r & Hr & Hlook).
  - intros i f n w Hf Hn Hw. destruct (Hfield i f n Hf Hn) as (v & _ & Hkind & Hv). congruence.
  - rewrite Hr. eexists. split; [reflexivity|]. split; [split; [done|]|]; simpl.
    + intros i f n Hf Hn. destruct (Hfield i f n Hf Hn) as (v & Hv & _ & Hrec).
      rewrite (Hlook i f Hf), Hn. simpl. by rewrite Hrec.
    + intros i f Hf Hn. by rewrite (Hlook i f Hf), Hn.
Qed.

(** X12: GetObject needs no registration.  On any table, registered or not,
    after Set(table, id, o) has returned without error for an instance o of a
    type with pairwise distinct storage names, a GetObject of the same key
    into an object of that type, whose request does not fail, returns without
    error; the object then equals o on every tagged field and keeps what it
    held in the untagged ones. *)
Theorem Set_then_GetObject (db db1 : Database) (table id : string) (o target : Object) :
  instanceOf o ->
  NoDup (storageNames (otype o)) ->
  otype target = otype o ->
  length (ovals target) = length (fieldsOf (otype o)) ->
  Set' table id o db = Returned (None, db1) ->
  nextOutage db1 = None ->
  ∃ o' db2, GetObject table id target db1 = Returned ((o', None), db2) ∧
            agreeOnTagged o o' ∧
            ∀ i f, fieldsOf (otype o) !! i = Some f -> fieldTag f = None ->
                   ovals o' !! i = ovals target !! i.
Proof.
  intros Hinst Hnd Hty Hlen HSet Hup.
  pose proof (Set_ok_key _ _ _ _ _ HSet) as Hk.
  pose proof (Set_sameSetup _ _ _ _ _ _ HSet) as (Hns1 & _).
  destruct (Set_ok_inv _ _ _ _ _ HSet) as (new & Hput & Hdb1).
  assert (stored db1 (namespace db, table, id) = Some new) as Hst1
    by (rewrite Hdb1, stored_advance; apply lookup_insert_eq).
  destruct (Decode_into o new target Hinst Hnd) as (o' & Hdec & Hagree & Hkeep); try done.
  { intros n v. by apply applyPut_includes with (1 := Hput). }
  rewrite <- Hns1 in Hk.
  rewrite (GetObject_spec _ _ _ _ _ Hk), Hup, Hns1, Hst1, Hdec. eauto.
Qed.

Lemma Set_then_GetObject_witness :
  types Fixtures.db0 !! "Guest" = None ∧
  instanceOf Fixtures.bob ∧
  NoDup (storageNames (otype Fixtures.bob)) ∧
  otype Fixtures.target = otype Fixtures.bob ∧
  length (ovals Fixtures.target) = length (fieldsOf (otype Fixtures.bob)) ∧
  Set' "Guest" "9" Fixtures.bob Fixtures.db0 = Returned (None, Fixtures.withGuest) ∧
  nextOutage Fixtures.withGuest = None ∧
  ∃ o' db2, GetObject "Guest" "9" Fixtures.target Fixtures.withGuest
              = Returned ((o', None), db2) ∧
            agreeOnTagged Fixtures.bob o' ∧
            ∀ i f, fieldsOf (otype Fixtures.bob) !! i = Some f -> fieldTag f = None ->
                   ovals o' !! i = ovals Fixtures.target !! i.
Proof.
  assert (instanceOf Fixtures.bob) as Hinst by (repeat constructor).
  assert (NoDup (storageNames (otype Fixtures.bob))) as Hnd.
  { apply NoDup_cons. split; [|apply NoDup_cons; split; [apply not_elem_of_nil | apply NoDup_nil_2]].
    intros Hin. apply list_elem_of_singleton in Hin. discriminate Hin. }
  split; [reflexivity|]. split; [exact Hinst|]. split; [exact Hnd|].
  split; [reflexivity|]. split; [reflexivity|]. split; [reflexivity|]. split; [reflexivity|].
  apply (Set_then_GetObject Fixtures.db0 Fixtures.withGuest "Guest" "9" Fixtures.bob
           Fixtures.target Hinst Hnd eq_refl eq_refl eq_refl eq_refl).
Defined.

(** ** DeleteTable *)

Lemma DeleteTable_spec db table :
  DeleteTable table db =
    Returned
      match nextOutage db with
      | Some code => (Some (AerospikeError code),
                      advance (ReqTruncate (namespace db) table)
                              (records (cluster (Client db))) db)
      | None => (None,
                 advance (ReqTruncate (namespace db) table)
                         (filter (fun kv => ¬ inSet (namespace db) table kv.1)
                                 (records (cluster (Client db)))) db)
      end.
Proof.
  unfold DeleteTable. open_db db.
  unfold viaClient, Client_Truncate. unfold_monad. simpl.
  destruct os as [|[code|] os]; reflexivity.
Qed.

(** X13: DeleteTable empties its table and no other.  When it has returned
    without error, no id of the table has a record in the database's
    namespace any more, so that a GetMap of any such id whose request does not
    fail reports "Record not found"; and whatever it returns, every record
    outside that namespace and table is what it was. *)
Theorem DeleteTable_empties_one_table (db db1 : Database) (table : string)
    (r : option error) :
  DeleteTable table db = Returned (r, db1) ->
  (r = None -> ∀ id, stored db1 (namespace db, table, id) = None) ∧
  (r = None -> nextOutage db1 = None -> ∀ id pk,
     as_NewKey (namespace db) table id = (pk, None) ->
     ∃ db2, GetMap table id db1 = Returned ((None, Some RecordNotFoundError), db2)) ∧
  (∀ k, ¬ inSet (namespace db) table k -> stored db1 k = stored db k).
Proof.
  intros HDel. pose proof (DeleteTable_sameSetup _ _ _ _ HDel) as (Hns1 & _).
  rewrite DeleteTable_spec in HDel.
  assert (r = None -> ∀ id, stored db1 (namespace db, table, id) = None) as Hgone.
  { intros ->. destruct (nextOutage db); [done|]. injection HDel as <-. intros id.
    rewrite stored_advance. apply map_lookup_filter_None_2. right.
    intros x _ Hnot. apply Hnot. by split. }
  split; [exact Hgone|]. split.
  - intros Hr Hup id pk Hk. pose proof (as_NewKey_ok _ _ _ _ Hk) as ->.
    rewrite <- Hns1 in Hk. rewrite (GetMap_spec _ _ _ _ Hk), Hup, Hns1, (Hgone Hr id). eauto.
  - intros k Hout. destruct (nextOutage db); injection HDel as _ <-; [done|].
    rewrite stored_advance. unfold stored.
    destruct (records (cluster (Client db)) !! k) as [bins|] eqn:E.
    + by apply map_lookup_filter_Some_2.
    + apply map_lookup_filter_None_2. by left.
Qed.

Lemma DeleteTable_empties_one_table_witness :
  DeleteTable "User" Fixtures.withAnn
    = Returned (None, advance (ReqTruncate "test" "User")
                              (filter (fun kv => ¬ inSet "test" "User" kv.1)
                                      (records (cluster (Client Fixtures.withAnn))))
                              Fixtures.withAnn) ∧
  stored (advance (ReqTruncate "test" "User")
                  (filter (fun kv => ¬ inSet "test" "User" kv.1)
                          (records (cluster (Client Fixtures.withAnn))))
                  Fixtures.withAnn) (namespace Fixtures.withAnn, "User", "123") = None.
Proof.
  split; [reflexivity|].
  destruct (DeleteTable_empties_one_table Fixtures.withAnn _ "User" None eq_refl)
    as (Hgone & _).
  exact (Hgone eq_refl "123").
Defined.

(** ** What Get returns with an error *)

(** Ids that are all non-empty give a batch of keys without a nil. *)
Lemma derefAll_valid ns table idList :
  Forall (fun id => id ≠ "") idList ->
  derefAll (map (fun id => (as_NewKey ns table id).1) idList)
  = Some (map (fun id => (ns, table, id)) idList).
Proof.
  induction 1 as [|id idList Hid _ IH]; simpl; [done|].
  destruct (as_NewKey_cases ns table id) as [[? _] | [_ ->]]; [done|]. simpl.
  by rewrite IH.
Qed.

(** C10: Get on a registered table, with an id a key can be built from,
    sends its one get request and returns a non-nil object of the registered
    type whatever the outcome.  When the request fails, it returns the freshly
    allocated zero value together with the request's error; when there is no
    record under the key, the zero value together with the not-found error;
    when there is a record, the value decoded from it together with the
    decoder's error, if any.  So every error of Get comes with a non-nil
    object of the registered type, the zero value when the error is the
    collaborator's.  GetMap and GetMany instead return nil with every error:
    GetMap returns (nil, err) for a failed request and (nil, "Record not
    found") for an absent record, and GetMany returns (nil, err) for a failed
    batch request. *)
Theorem Get_returns_object_with_error (db : Database) (table id : string) (t : rtype)
    (pk : option as_Key) :
  types db !! table = Some t ->
  as_NewKey (namespace db) table id = (pk, None) ->
  let k := (namespace db, table, id) in
  let db' := advance (ReqGet k) (records (cluster (Client db))) db in
  (∀ code, nextOutage db = Some code ->
     Get table id db
     = Returned ((Some (reflect_New t), Some (AerospikeError code)), db')) ∧
  (nextOutage db = None -> stored db k = None ->
     Get table id db
     = Returned ((Some (reflect_New t), Some (AerospikeError KEY_NOT_FOUND_ERROR)), db')) ∧
  (∀ bins, nextOutage db = None -> stored db k = Some bins ->
     Get table id db
     = Returned ((Some (Decode bins (reflect_New t)).1, (Decode bins (reflect_New t)).2),
                 db')) ∧
  (∀ r e d, Get table id db = Returned ((r, Some e), d) ->
     ∃ o, r = Some o ∧ otype o = t ∧
          (∀ code, e = AerospikeError code -> o = reflect_New t)) ∧
  (∀ code, nextOutage db = Some code ->
     GetMap table id db = Returned ((None, Some (AerospikeError code)), db')) ∧
  (nextOutage db = None -> stored db k = None ->
     GetMap table id db = Returned ((None, Some RecordNotFoundError), db')) ∧
  (∀ r e d, GetMap table id db = Returned ((r, Some e), d) -> r = None) ∧
  (∀ idList code, idList ≠ [] -> Forall (fun id => id ≠ "") idList ->
     nextOutage db = Some code ->
     GetMany table idList db
     = Returned ((None, Some (AerospikeError code)),
                 advance (ReqBatchGet (map (fun id => (namespace db, table, id)) idList))
                         (records (cluster (Client db))) db)) ∧
  (∀ idList r e d, GetMany table idList db = Returned ((r, Some e), d) -> r = None).
Proof.
  intros Ht Hk k db'. pose proof (as_NewKey_ok _ _ _ _ Hk) as ->.
  pose proof (Get_spec _ _ _ _ _ Hk Ht) as HGet.
  pose proof (GetMap_spec _ _ _ _ Hk) as HMap.
  fold k in HGet, HMap. fold db' in HGet, HMap.
  split; [|split; [|split; [|split; [|split; [|split; [|split; [|split]]]]]]].
  - intros code Hout. by rewrite HGet, Hout.
  - intros Hup Hno. by rewrite HGet, Hup, Hno.
  - intros bins Hup Hst. by rewrite HGet, Hup, Hst.
  - intros r e d. rewrite HGet.
    destruct (nextOutage db) as [code|].
    { intros [= <- <- _]. exists (reflect_New t). by repeat split. }
    destruct (stored db k) as [bins|].
    2:{ intros [= <- <- _]. exists (reflect_New t). by repeat split. }
    unfold Decode. destruct (populate _ _ _) as [vs err] eqn:E. simpl.
    intros [= <- -> _]. eexists. split; [reflexivity|]. split; [reflexivity|].
    intros code ->. by destruct (populate_error _ _ _ _ _ E).
  - intros code Hout. by rewrite HMap, Hout.
  - intros Hup Hno. by rewrite HMap, Hup, Hno.
  - intros r e d. rewrite HMap.
    destruct (nextOutage db); [congruence|]. destruct (stored db k); congruence.
  - intros idList code Hne Hids Hout.
    by rewrite (GetMany_spec _ _ _ _ Ht Hne), derefAll_valid, Hout.
  - intros idList r e d. destruct (decide (idList = [])) as [->|Hne].
    + unfold GetMany. rewrite Ht. simpl. congruence.
    + rewrite (GetMany_spec _ _ _ _ Ht Hne).
      destruct (derefAll _); [|done]. destruct (nextOutage db); [congruence|].
      destruct (batchPopulate _ _ _) as [written [err|]]; congruence.
Qed.

Lemma Get_returns_object_with_error_witness :
  types Fixtures.flaky !! "User" = Some (TStruct Fixtures.User) ∧
  as_NewKey (namespace Fixtures.flaky) "User" "123" = (Some ("test", "User", "123"), None) ∧
  nextOutage Fixtures.flaky = Some 9%Z ∧
  Get "User" "123" Fixtures.flaky
  = Returned ((Some (reflect_New (TStruct Fixtures.User)), Some (AerospikeError 9)),
              advance (ReqGet ("test", "User", "123")) ∅ Fixtures.flaky) ∧
  GetMap "User" "123" Fixtures.flaky
  = Returned ((None, Some (AerospikeError 9)),
              advance (ReqGet ("test", "User", "123")) ∅ Fixtures.flaky).
Proof.
  split; [reflexivity|]. split; [reflexivity|]. split; [reflexivity|].
  destruct (Get_returns_object_with_error Fixtures.flaky "User" "123"
              (TStruct Fixtures.User) (Some ("test", "User", "123")) eq_refl eq_refl)
    as (HGet & _ & _ & _ & HMap & _).
  split; [exact (HGet 9%Z eq_refl) | exact (HMap 9%Z eq_refl)].
Defined.
